(** * bugzilla_hg.py: blame attribution of a bug's fixing patches

    A shallow embedding of [bugzilla_hg.py] and the properties its
    specification states about it.

    Python values are modelled as follows.
    - [str] is [string]; every character is a code point below 256.  Text
      holding other code points is outside the model.
    - [int] is [Z].
    - [list] is [list]; [set] of strings is [gset string]; the [dict]
      [blamed_names] is an association list in insertion order, which is the
      order Python iterates it in.
    - An exception is a value of [exception]; a computation that may raise
      returns [result], and one that also runs external commands or prints
      lives in the monad [M]. *)

From Stdlib Require Import ZArith Ascii String List.
From stdpp Require Import base decidable option list sets gmap strings pretty.

Local Open Scope string_scope.
Local Open Scope Z_scope.

(** ** Python string primitives *)

Module Py.

(** [c.isspace()] for a code point below 256. *)
Definition isspace (c : ascii) : bool :=
  let n := nat_of_ascii c in
  ((9 <=? n) && (n <=? 13) || (28 <=? n) && (n <=? 32)
   || (n =? 133) || (n =? 160))%nat.

(** A line boundary of [str.splitlines], [\r\n] apart. *)
Definition islinebreak (c : ascii) : bool :=
  let n := nat_of_ascii c in
  ((10 <=? n) && (n <=? 13) || (28 <=? n) && (n <=? 30) || (n =? 133))%nat.

Definition len (s : string) : Z := Z.of_nat (String.length s).

Fixpoint drop (n : nat) (s : string) : string :=
  match n, s with
  | O, _ => s
  | S n, String _ r => drop n r
  | S _, EmptyString => EmptyString
  end.

Fixpoint take (n : nat) (s : string) : string :=
  match n, s with
  | O, _ => EmptyString
  | S n, String c r => String c (take n r)
  | S _, EmptyString => EmptyString
  end.

(** Index normalisation of a slice bound: a negative bound counts from
    the end, and the result is clipped to [0 .. len]. *)
Definition clip (n i : Z) : Z :=
  let i := if i <? 0 then i + n else i in
  Z.max 0 (Z.min n i).

(** [s[a:b]] *)
Definition slice (s : string) (a b : Z) : string :=
  let a := clip (len s) a in
  let b := clip (len s) b in
  take (Z.to_nat (b - a)) (drop (Z.to_nat a) s).

(** [s[a:]] *)
Definition slice_from (s : string) (a : Z) : string :=
  drop (Z.to_nat (clip (len s) a)) s.

(** [s.startswith(sub)] *)
Fixpoint startswith (s sub : string) {struct sub} : bool :=
  match sub with
  | EmptyString => true
  | String a sub =>
      match s with
      | EmptyString => false
      | String b s => Ascii.eqb a b && startswith s sub
      end
  end.

(** Least offset at which [sub] occurs in [t]. *)
Fixpoint index_of (sub t : string) : option Z :=
  if startswith t sub then Some 0
  else match t with
       | EmptyString => None
       | String _ r => Z.succ <$> index_of sub r
       end.

(** [s.find(sub, start)]: the least index at or after [start] where [sub]
    occurs, [-1] when there is none.  A negative [start] counts from the
    end and is clipped to 0; a [start] beyond the end finds nothing. *)
Definition find (s sub : string) (start : Z) : Z :=
  let n := len s in
  let st := if start <? 0 then Z.max 0 (start + n) else start in
  if n <? st then -1
  else match index_of sub (drop (Z.to_nat st) s) with
       | Some k => st + k
       | None => -1
       end.

Fixpoint lstrip (s : string) : string :=
  match s with
  | String c r => if isspace c then lstrip r else s
  | EmptyString => EmptyString
  end.

(** [s.rstrip()] *)
Fixpoint rstrip (s : string) : string :=
  match s with
  | EmptyString => EmptyString
  | String c r =>
      match rstrip r with
      | EmptyString => if isspace c then EmptyString else String c EmptyString
      | r' => String c r'
      end
  end.

(** [s.split()]: the maximal runs of non-whitespace characters.  [cur] is
    the run being read, reversed. *)
Fixpoint split_ws (cur : list ascii) (s : string) : list string :=
  let flush := match cur with
               | [] => []
               | _ => [string_of_list_ascii (rev cur)]
               end in
  match s with
  | EmptyString => flush
  | String c r =>
      if isspace c then (flush ++ split_ws [] r)%list
      else split_ws (c :: cur) r
  end.

Definition split (s : string) : list string := split_ws [] s.

(** [s.split(sep)[0]] for a one-character separator: the text before the
    first [sep], the whole of [s] when there is none. *)
Fixpoint before (sep : ascii) (s : string) : string :=
  match s with
  | EmptyString => EmptyString
  | String c r => if Ascii.eqb c sep then EmptyString else String c (before sep r)
  end.

(** [s.splitlines()] *)
Fixpoint splitlines_go (cur : list ascii) (s : string) : list string :=
  match s with
  | EmptyString =>
      match cur with
      | [] => []
      | _ => [string_of_list_ascii (rev cur)]
      end
  | String c r =>
      if islinebreak c then
        string_of_list_ascii (rev cur) ::
          match r with
          | String c' r' =>
              if Ascii.eqb c "013" && Ascii.eqb c' "010"
              then splitlines_go [] r'
              else splitlines_go [] r
          | EmptyString => []
          end
      else splitlines_go (c :: cur) r
  end.

Definition splitlines (s : string) : list string := splitlines_go [] s.

Definition digit_of (c : ascii) : option Z :=
  let n := nat_of_ascii c in
  if ((48 <=? n) && (n <=? 57))%nat then Some (Z.of_nat n - 48) else None.

(** The digits of an [int] literal: decimal digits, with single
    underscores allowed between two digits. *)
Fixpoint int_digits (acc : Z) (after_digit : bool) (s : string) : option Z :=
  match s with
  | EmptyString => if after_digit then Some acc else None
  | String c r =>
      match digit_of c with
      | Some d => int_digits (10 * acc + d) true r
      | None =>
          if Ascii.eqb c "_" && after_digit then int_digits acc false r
          else None
      end
  end.

(** The whitespace that [int] skips around a literal.  It is narrower
    than that of [str.split]: the interpreter converts the white space
    above U+007F to a blank and then skips the six characters of the C
    locale, so the separators U+001C to U+001F are not skipped. *)
Definition int_space (c : ascii) : bool :=
  let n := nat_of_ascii c in
  ((9 <=? n) && (n <=? 13) || (n =? 32) || (n =? 133) || (n =? 160))%nat.

Fixpoint int_lstrip (s : string) : string :=
  match s with
  | String c r => if int_space c then int_lstrip r else s
  | EmptyString => EmptyString
  end.

Fixpoint int_rstrip (s : string) : string :=
  match s with
  | EmptyString => EmptyString
  | String c r =>
      match int_rstrip r with
      | EmptyString => if int_space c then EmptyString else String c EmptyString
      | r' => String c r'
      end
  end.

(** [sys.get_int_max_str_digits()], at its default. *)
Definition max_str_digits : Z := 4300.

Fixpoint count_digits (s : string) : Z :=
  match s with
  | EmptyString => 0
  | String c r =>
      match digit_of c with
      | Some _ => 1 + count_digits r
      | None => count_digits r
      end
  end.

(** An unsigned literal: refused when it has more digits than
    [max_str_digits], whatever its value. *)
Definition int_literal (t : string) : option Z :=
  if max_str_digits <? count_digits t then None else int_digits 0 false t.

(** [int(s)] for a string: [None] stands for [ValueError].  The white
    space of [int_space] is dropped on both sides, one sign is allowed,
    and nothing may stand between the sign and the digits. *)
Definition int (s : string) : option Z :=
  match int_rstrip (int_lstrip s) with
  | String "+" r => int_literal r
  | String "-" r => Z.opp <$> int_literal r
  | t => int_literal t
  end.

(** [str(n)] *)
Definition str (n : Z) : string := pretty n.

Fixpoint replace_char (c : ascii) (by_ : string) (s : string) : string :=
  match s with
  | EmptyString => EmptyString
  | String d r =>
      (if Ascii.eqb d c then by_ else String d EmptyString) ++ replace_char c by_ r
  end.

Definition shell_safe (c : ascii) : bool :=
  let n := nat_of_ascii c in
  ((48 <=? n) && (n <=? 57) || (65 <=? n) && (n <=? 90)
   || (97 <=? n) && (n <=? 122))%nat
  || bool_decide (c ∈ ["_"; "@"; "%"; "+"; "="; ":"; ","; "."; "/"; "-"]%char).

Fixpoint forallb_str (p : ascii → bool) (s : string) : bool :=
  match s with
  | EmptyString => true
  | String c r => p c && forallb_str p r
  end.

Definition dquote : string := String "034" EmptyString.

(** [shlex.quote(s)] *)
Definition quote (s : string) : string :=
  match s with
  | EmptyString => "''"
  | _ =>
      if forallb_str shell_safe s then s
      else "'" ++ replace_char "'" ("'" ++ dquote ++ "'" ++ dquote ++ "'") s ++ "'"
  end.

End Py.

(** ** Exceptions, external commands and the monad of the program *)

(** A command the program runs: [hg] with an argument vector
    ([HgPApi.run_command]), or a shell command line
    ([subprocess.check_output(..., shell=True)]). *)
Inductive command :=
| Hg (args : list string)
| Shell (line : string).

(** The exceptions the program can raise.  [ValueError] carries the
    literal [int] rejected, [CalledProcessError] the command that failed. *)
Inductive exception :=
| IndexError
| ValueError (literal : string)
| StopIteration
| CalledProcessError (cmd : command).



Definition result (A : Type) : Type := exception + A.

Definition Ok {A} (a : A) : result A := inr a.
Definition Raise {A} (e : exception) : result A := inl e.

Global Instance result_ret : MRet result := λ A a, inr a.
Global Instance result_bind : MBind result := λ A B f m,
  match m with
  | inl e => inl e
  | inr a => f a
  end.

(** What a run leaves behind: the commands run, oldest first, and the lines
    printed. *)
Record world := World {
  trace : list command;
  stdout : list string;
}.

Definition M (A : Type) : Type := world → result A * world.

Global Instance M_ret : MRet M := λ A a w, (inr a, w).
Global Instance M_bind : MBind M := λ A B f m w,
  match m w with
  | (inl e, w') => (inl e, w')
  | (inr a, w') => f a w'
  end.

Definition lift {A} (r : result A) : M A := λ w, (r, w).

Definition py_int (s : string) : result Z :=
  match Py.int s with
  | Some n => Ok n
  | None => Raise (ValueError s)
  end.

(** [for x in l: body], threading the loop state. *)
Fixpoint for_each {A S} (body : S → A → M S) (l : list A) (s : S) : M S :=
  match l with
  | [] => mret s
  | x :: l => s' ← body s x; for_each body l s'
  end.

(** ** The data model *)

(** [class DiffLines] *)
Record DiffLines := mkDiffLines {
  start : Z;
  count : Z;
}.

(** [DiffLines.__init__]: the start is converted to a zero-based line
    number. *)
Definition DiffLines_init (start count : Z) : DiffLines :=
  {| start := start - 1; count := count |}.

(** [class FileDiff] *)
Record FileDiff := mkFileDiff {
  fd_revision : string;
  filename : string;
  diffs : list DiffLines;
}.

Definition FileDiff_init (revision filename : string) : FileDiff :=
  {| fd_revision := revision; filename := filename; diffs := [] |}.

(** [class RevisionDiff] *)
Record RevisionDiff := mkRevisionDiff {
  revision : string;
  files : list FileDiff;
}.

(** ** DiffHunkParser: [RevisionDiff.__init__] *)

(** [self.files[-1].diffs.append(d)]; [IndexError] when [files] is empty. *)
Fixpoint append_to_last (files : list FileDiff) (d : DiffLines)
  : result (list FileDiff) :=
  match files with
  | [] => Raise IndexError
  | [f] => Ok [ {| fd_revision := fd_revision f; filename := filename f;
                   diffs := (diffs f ++ [d])%list |} ]
  | f :: fs => fs' ← append_to_last fs d; Ok (f :: fs')
  end.

(** [line.split()[-1]]; [IndexError] when the line has no token. *)
Definition last_token (line : string) : result string :=
  match last (Py.split line) with
  | Some t => Ok t
  | None => Raise IndexError
  end.

(** The body of the loop over the lines of the diff. *)
Definition parse_line (revision : string) (files : list FileDiff) (line : string)
  : result (list FileDiff) :=
  match line with
  | EmptyString => Ok files
  | String c0 _ =>
      files ←
        (if bool_decide (Py.find line "diff " 0 = 0) then
           tok ← last_token line;
           let filename := Py.slice_from tok 2 in
           Ok (files ++ [FileDiff_init revision filename])%list
         else Ok files);
      if Ascii.eqb c0 "@" then
        let comma := Py.find line "," 3 in
        old_line_start ← py_int (Py.slice line 4 comma);
        diff_size ← py_int (Py.slice line (comma + 1) (Py.find line " " 3));
        append_to_last files (DiffLines_init old_line_start diff_size)
      else Ok files
  end.

Fixpoint parse_lines (revision : string) (files : list FileDiff) (lines : list string)
  : result (list FileDiff) :=
  match lines with
  | [] => Ok files
  | line :: lines =>
      files ← parse_line revision files line;
      parse_lines revision files lines
  end.

Definition RevisionDiff_init (revision : string) (lines : list string)
  : result RevisionDiff :=
  files ← parse_lines revision [] lines;
  Ok {| revision := revision; files := files |}.

(** ** The external collaborator *)

(** The answers of the outside world: the output of [hg] for an argument
    vector and of the shell for a command line; [None] is a non-zero exit
    status.  The repository does not change during a run. *)
Record HgRepo := mkHgRepo {
  hg_out : list string → option string;
  sh_out : string → option string;
}.

(** [dict]: association list in insertion order. *)
Definition dict : Type := list (string * string).

Fixpoint dict_get (d : dict) (k : string) : option string :=
  match d with
  | [] => None
  | (k', v) :: d => if bool_decide (k' = k) then Some v else dict_get d k
  end.

(** [d[k] = v]: an existing key keeps its position, a new one goes last. *)
Fixpoint dict_set (d : dict) (k v : string) : dict :=
  match d with
  | [] => [(k, v)]
  | (k', v') :: d =>
      if bool_decide (k' = k) then (k, v) :: d else (k', v') :: dict_set d k v
  end.

Definition dict_keys (d : dict) : list string := d.*1.

(** [print(line)] *)
Definition print (line : string) : M unit := λ w,
  (Ok tt, {| trace := trace w; stdout := (stdout w ++ [line])%list |}).

(** [[f(x) for x in l]] *)
Fixpoint map_M {A B} (f : A → M B) (l : list A) : M (list B) :=
  match l with
  | [] => mret []
  | x :: l => y ← f x; ys ← map_M f l; mret (y :: ys)
  end.

Section Program.

Variable repo : HgRepo.

(** The element a [set.pop()] removes is the interpreter's choice:
    [pick s] is its index in [elements s], taken modulo the size. *)
Variable pick : gset string → nat.

(** [subprocess.check_output]: the command is recorded, and a failure
    raises [CalledProcessError]. *)
Definition check_output (c : command) : M string := λ w,
  let w' := {| trace := (trace w ++ [c])%list; stdout := stdout w |} in
  match match c with
        | Hg args => hg_out repo args
        | Shell line => sh_out repo line
        end with
  | Some out => (Ok out, w')
  | None => (Raise (CalledProcessError c), w')
  end.

(** *** [class HgPApi] *)

Definition HgPApi_run_command (args : list string) : M string :=
  check_output (Hg args).

Definition HgPApi_revs_from_keyword (keyword : string) : M (list string) :=
  out ← HgPApi_run_command ["log"; "-T"; "{rev} "; "--keyword"; keyword];
  mret (Py.split out).

Definition HgPApi_diffs_from_rev (rev : string) : M string :=
  HgPApi_run_command ["log"; "-p"; "-r"; rev].

Definition HgPApi_parent (rev : string) : M string :=
  HgPApi_run_command ["log"; "-T"; "{p1rev}"; "-r"; rev].

Definition HgPApi_blame (filename rev : string) : M string :=
  HgPApi_run_command ["annotate"; "-r"; rev; filename].

Definition HgPApi_author (rev : string) : M string :=
  HgPApi_run_command ["log"; "-T"; "{author}"; "-r"; rev].

Definition HgPApi_count_prior_commits (author rev : string) : M string :=
  let author := Py.quote author in
  n ← lift (py_int rev);
  let rev := Py.str n in
  let command :=
    "hg log -T '1' --user " ++ author ++ " -r ::" ++ rev ++ " | wc -c" in
  out ← check_output (Shell command);
  mret (Py.rstrip out).

(** *** BlameIntersector: [class FileDiff] *)

Definition FileDiff_is_rust_file (fd : FileDiff) : bool :=
  bool_decide (Py.find (filename fd) ".rs" (-3) ≠ -1).

(** The loop of [FileDiff.get_blamed_revs] over [enumerate(blame_lines)]:
    [i] is the index of the next line, [ld] the current range, [ldi] what
    the iterator over [self.diffs] has left. *)
Fixpoint blame_scan (exclude : list string) (blame_lines : list string)
    (i : Z) (ld : DiffLines) (ldi : list DiffLines)
    (blamed_revs : gset string) : gset string :=
  match blame_lines with
  | [] => blamed_revs
  | line :: blame_lines =>
      let '(ld, ldi) :=
        if bool_decide (i >= start ld + count ld)
        then (head ldi, tail ldi) else (Some ld, ldi) in
      match ld with
      | None => blamed_revs
      | Some ld =>
          let blamed_revs :=
            if bool_decide (i >= start ld) then
              let blame_rev := Py.before ":" line in
              if bool_decide (blame_rev ∉ exclude)
              then blamed_revs ∪ {[blame_rev]} else blamed_revs
            else blamed_revs in
          blame_scan exclude blame_lines (i + 1) ld ldi blamed_revs
      end
  end.

Definition FileDiff_get_blamed_revs (fd : FileDiff) (exclude : list string)
  : M (gset string) :=
  parent ← HgPApi_parent (fd_revision fd);
  blame_raw ← HgPApi_blame (filename fd) parent;
  let blame_lines := Py.splitlines blame_raw in
  match diffs fd with
  | [] => lift (Raise StopIteration)
  | ld :: ldi => mret (blame_scan exclude blame_lines 0 ld ldi ∅)
  end.

(** *** [RevisionDiff.get_blamed_revs] *)

Definition RevisionDiff_get_blamed_revs (rd : RevisionDiff)
    (exclude : list string) (rust_only : bool) : M (gset string) :=
  for_each (λ blamed_revs fdiff,
              if rust_only && negb (FileDiff_is_rust_file fdiff)
              then mret blamed_revs
              else s ← FileDiff_get_blamed_revs fdiff exclude;
                   mret (blamed_revs ∪ s))
           (files rd) ∅.

(** *** RevisionAttributor: [get_blamed_revs] *)

Definition get_blamed_revs (rev_diffs : list RevisionDiff)
    (exclude : list string) (rust_only : bool) : M (gset string) :=
  for_each (λ blamed_revs rev_diff,
              s ← RevisionDiff_get_blamed_revs rev_diff exclude rust_only;
              mret (blamed_revs ∪ s))
           rev_diffs ∅.

(** *** AuthorReducer: [get_blamed_names] *)

(** The element [blamed_revs.pop()] returns, for a non-empty set. *)
Definition set_pop (s : gset string) : string :=
  let l := elements s in
  nth (pick s mod length l) l "".

(** The body of the [while] loop once [rev] has been popped. *)
Definition blamed_names_update (blamed_names : dict) (rev : string) : M dict :=
  author ← HgPApi_author rev;
  match dict_get blamed_names author with
  | None => mret (dict_set blamed_names author rev)
  | Some cur =>
      n ← lift (py_int rev);
      m ← lift (py_int cur);
      if bool_decide (n < m) then mret (dict_set blamed_names author rev)
      else mret blamed_names
  end.

(** The [while] loop.  It pops one element a turn, so [size blamed_revs]
    turns empty the set; [fuel] is given that value.  The result is the
    dictionary together with the state the loop leaves the caller's set
    in. *)
Fixpoint get_blamed_names_loop (fuel : nat) (blamed_revs : gset string)
    (blamed_names : dict) : M (dict * gset string) :=
  match fuel with
  | O => mret (blamed_names, blamed_revs)
  | S fuel =>
      if bool_decide (size blamed_revs = 0%nat)
      then mret (blamed_names, blamed_revs)
      else
        let rev := set_pop blamed_revs in
        let blamed_revs := blamed_revs ∖ {[rev]} in
        blamed_names ← blamed_names_update blamed_names rev;
        get_blamed_names_loop fuel blamed_revs blamed_names
  end.

Definition get_blamed_names (blamed_revs : gset string) : M (dict * gset string) :=
  get_blamed_names_loop (size blamed_revs) blamed_revs [].

(** *** Orchestrator: [main] *)

(** Lines 130-136 of [main]: from the fixing revisions to the set of
    blamed revisions. *)
Definition main_blamed_revs (revisions : list string) (rust_only : bool)
  : M (gset string) :=
  raw_data ← map_M (λ revision,
                      d ← HgPApi_diffs_from_rev revision;
                      mret (revision, d)) revisions;
  rev_diffs ← map_M (λ '(revision, d),
                       lift (RevisionDiff_init revision (Py.splitlines d)))
                    raw_data;
  get_blamed_revs rev_diffs revisions rust_only.

Definition main (keyword : string) (rust_only : bool) : M unit :=
  revisions ← HgPApi_revs_from_keyword keyword;
  match revisions with
  | [] => mret tt
  | _ =>
      blamed_revs ← main_blamed_revs revisions rust_only;
      '(blamed_names, _) ← get_blamed_names blamed_revs;
      for_each (λ _ '(name, rev),
                  commit_count ← HgPApi_count_prior_commits name rev;
                  print commit_count)
               blamed_names tt
  end.

End Program.

(** ** A small repository to run the program on *)

Module Demo.

Definition nl : string := String "010" "".

Definition unlines (ls : list string) : string :=
  String.concat nl ls ++ nl.

(** Revisions 10 and 12 fix bug 1234.  Revision 10 changes [foo.py];
    revision 12 changes [foo.rs] and [foo.py].  [hg annotate] pads the
    revision numbers of a file to a common width. *)
Definition diff_10 : string :=
  unlines ["changeset:   10:0a1b2c3d4e5f"; "user:        carol";
           "summary:     Bug 1234 - part 1"; "";
           "diff --git a/foo.py b/foo.py"; "--- a/foo.py"; "+++ b/foo.py";
           "@@ -1,2 +1,2 @@"; "-x = 1"; "-y = 2"; "+x = 2"; "+y = 3"].

Definition diff_12 : string :=
  unlines ["changeset:   12:5f4e3d2c1b0a"; "user:        carol";
           "summary:     Bug 1234 - part 2"; "";
           "diff --git a/foo.rs b/foo.rs"; "--- a/foo.rs"; "+++ b/foo.rs";
           "@@ -3,2 +3,2 @@"; "-let c = 0;"; "-let d = 0;";
           "+let c = 1;"; "+let d = 1;";
           "diff --git a/foo.py b/foo.py"; "--- a/foo.py"; "+++ b/foo.py";
           "@@ -2,1 +2,1 @@"; "-y = 3"; "+y = 4"].

Definition author_of (n : Z) : option string :=
  match n with
  | 3 | 8 | 30 | 50 => Some "alice"
  | 5 | 7 => Some "bob"
  | 10 | 12 => Some "carol"
  | _ => None
  end.

Definition hg (args : list string) : option string :=
  match args with
  | [a; b; c; d; e] =>
      if bool_decide (args = ["log"; "-T"; "{rev} "; "--keyword"; "1234"])
      then Some "10 12 "
      else if bool_decide ([a; b; c; d] = ["log"; "-T"; "{p1rev}"; "-r"])
      then (λ n, Py.str (n - 1)) <$> Py.int e
      else if bool_decide ([a; b; c; d] = ["log"; "-T"; "{author}"; "-r"])
      then Py.int e ≫= author_of
      else None
  | [a; b; c; d] =>
      if bool_decide (args = ["log"; "-p"; "-r"; "10"]) then Some diff_10
      else if bool_decide (args = ["log"; "-p"; "-r"; "12"]) then Some diff_12
      else if bool_decide (args = ["annotate"; "-r"; "9"; "foo.py"])
      then Some (unlines ["8: x = 1"; "5: y = 2"])
      else if bool_decide (args = ["annotate"; "-r"; "11"; "foo.py"])
      then Some (unlines ["10: x = 2"; " 7: y = 3"])
      else if bool_decide (args = ["annotate"; "-r"; "11"; "foo.rs"])
      then Some (unlines [" 3: let a = 0;"; " 5: let b = 0;"; " 8: let c = 0;";
                          "10: let d = 0;"; " 3: let e = 0;"])
      else None
  | _ => None
  end.

(** Every author has 17 commits. *)
Definition sh (line : string) : option string := Some ("17" ++ nl).

Definition repo : HgRepo := {| hg_out := hg; sh_out := sh |}.

(** [set.pop()] takes the first element, or the last. *)
Definition pick_first (s : gset string) : nat := 0.
Definition pick_last (s : gset string) : nat := Nat.pred (size s).

Definition w0 : world := {| trace := []; stdout := [] |}.

(** The revisions blamed for bug 1234. *)
Definition blamed : gset string := {["5"; "8"; " 7"; " 8"]}.

End Demo.

(** ** A repository in which one file is fixed twice *)

Module Sibling.

(** Revisions 9 and 12 fix bug 4321, both in lines 1 and 2 of [foo.rs];
    revision 10 changed line 2 in between.  At revision 11, the parent of
    12, line 1 is the one revision 9 wrote, and [hg annotate] prints that
    9 padded to the width of the 10 below it. *)
Definition diff_9 : string :=
  Demo.unlines
    ["changeset:   9:9f8e7d6c5b4a"; "user:        carol";
     "summary:     Bug 4321 - part 1"; "";
     "diff --git a/foo.rs b/foo.rs"; "--- a/foo.rs"; "+++ b/foo.rs";
     "@@ -1,2 +1,2 @@"; "-let a = 0;"; "-let b = 0;";
     "+let a = 1;"; "+let b = 1;"].

Definition diff_12 : string :=
  Demo.unlines
    ["changeset:   12:1a2b3c4d5e6f"; "user:        carol";
     "summary:     Bug 4321 - part 2"; "";
     "diff --git a/foo.rs b/foo.rs"; "--- a/foo.rs"; "+++ b/foo.rs";
     "@@ -1,2 +1,2 @@"; "-let a = 1;"; "-let b = 2;";
     "+let a = 3;"; "+let b = 3;"].

Definition blame_8 : string :=
  Demo.unlines ["3: let a = 0;"; "3: let b = 0;"].

Definition blame_11 : string :=
  Demo.unlines [" 9: let a = 1;"; "10: let b = 2;"].

Definition author_of (n : Z) : option string :=
  match n with
  | 3 => Some "alice"
  | 10 => Some "bob"
  | 9 | 12 => Some "carol"
  | _ => None
  end.

Definition hg (args : list string) : option string :=
  match args with
  | [a; b; c; d; e] =>
      if bool_decide (args = ["log"; "-T"; "{rev} "; "--keyword"; "4321"])
      then Some "9 12 "
      else if bool_decide ([a; b; c; d] = ["log"; "-T"; "{p1rev}"; "-r"])
      then (λ n, Py.str (n - 1)) <$> Py.int e
      else if bool_decide ([a; b; c; d] = ["log"; "-T"; "{author}"; "-r"])
      then Py.int e ≫= author_of
      else None
  | [a; b; c; d] =>
      if bool_decide (args = ["log"; "-p"; "-r"; "9"]) then Some diff_9
      else if bool_decide (args = ["log"; "-p"; "-r"; "12"]) then Some diff_12
      else if bool_decide (args = ["annotate"; "-r"; "8"; "foo.rs"])
      then Some blame_8
      else if bool_decide (args = ["annotate"; "-r"; "11"; "foo.rs"])
      then Some blame_11
      else None
  | _ => None
  end.

Definition repo : HgRepo := {| hg_out := hg; sh_out := Demo.sh |}.

End Sibling.

(** ** The vocabulary of the claims *)

(** The world after one more command. *)
Definition ran (c : command) (w : world) : world :=
  {| trace := (trace w ++ [c])%list; stdout := stdout w |}.

Definition keyword_cmd (keyword : string) : command :=
  Hg ["log"; "-T"; "{rev} "; "--keyword"; keyword].

Definition parent_cmd (rev : string) : command :=
  Hg ["log"; "-T"; "{p1rev}"; "-r"; rev].

Definition blame_cmd (filename rev : string) : command :=
  Hg ["annotate"; "-r"; rev; filename].

Definition author_cmd (rev : string) : command :=
  Hg ["log"; "-T"; "{author}"; "-r"; rev].

(** The revisions a blame output attributes its lines to, in line order. *)
Definition blame_listing (blame_raw : string) : list string :=
  Py.before ":" <$> Py.splitlines blame_raw.



(** The order in which the loop of [get_blamed_names] pops the elements
    of [s]. *)
Fixpoint pop_order (pick : gset string → nat) (fuel : nat) (s : gset string)
  : list string :=
  match fuel with
  | O => []
  | S fuel =>
      if bool_decide (size s = 0%nat) then []
      else let rev := set_pop pick s in rev :: pop_order pick fuel (s ∖ {[rev]})
  end.

(** The author the repository names for a revision. *)
Definition author_of (repo : HgRepo) (rev : string) : option string :=
  hg_out repo ["log"; "-T"; "{author}"; "-r"; rev].

(** Both revisions are numbers, and the first is not the larger. *)
Definition not_after (r r' : string) : Prop :=
  ∃ n n', Py.int r = Some n ∧ Py.int r' = Some n' ∧ n <= n'.

(** [r'] is a number below the number [r]. *)
Definition below (r' r : string) : Prop :=
  ∃ n' n, Py.int r' = Some n' ∧ Py.int r = Some n ∧ n' < n.

(** Two revisions that are the same string or the same number. *)
Definition same_number (r1 r2 : string) : Prop :=
  r1 = r2 ∨ ∃ n, Py.int r1 = Some n ∧ Py.int r2 = Some n.

(** [r] is one of the fixing revisions, in the spelling of the list or in
    another spelling of the same number. *)
Definition names_fixing_revision (revisions : list string) (r : string) : Prop :=
  ∃ f, f ∈ revisions ∧ same_number f r.

(** [d] is an attribution of the revisions [X]: one entry an author of
    [X], holding a revision of that author which no other revision of the
    same author in [X] is numerically below. *)
Definition represents (repo : HgRepo) (X : gset string) (d : dict) : Prop :=
  NoDup (dict_keys d) ∧
  (∀ a r, dict_get d a = Some r →
     r ∈ X ∧ author_of repo r = Some a ∧
     ∀ r', r' ∈ X → author_of repo r' = Some a → r' ≠ r → not_after r r') ∧
  (∀ r, r ∈ X → ∃ a, author_of repo r = Some a ∧ is_Some (dict_get d a)).

(** The sets on which no draw order raises: every author is known, and the
    revisions of an author blamed more than once are numbers. *)
Definition reducible (repo : HgRepo) (X : gset string) : Prop :=
  (∀ r, r ∈ X → is_Some (author_of repo r)) ∧
  (∀ r r', r ∈ X → r' ∈ X → r ≠ r' → author_of repo r = author_of repo r' →
     is_Some (Py.int r) ∧ is_Some (Py.int r')).

(** No two revisions of one author in [X] are the same number. *)
Definition no_ties (repo : HgRepo) (X : gset string) : Prop :=
  ∀ r r' n, r ∈ X → r' ∈ X → author_of repo r = author_of repo r' →
            Py.int r = Some n → Py.int r' = Some n → r = r'.

(** The claim of order independence, as the specification words it: two
    draw orders give the same author → revision pairs. *)
Definition order_independent (repo : HgRepo) (X : gset string) : Prop :=
  ∀ pick1 pick2 w d1 X1 w1 d2 X2 w2,
    get_blamed_names repo pick1 X w = (Ok (d1, X1), w1) →
    get_blamed_names repo pick2 X w = (Ok (d2, X2), w2) →
    ∀ a, dict_get d1 a = dict_get d2 a.

(** The claim that the reduction leaves its input set as it was. *)
Definition input_set_kept (repo : HgRepo) (pick : gset string → nat) : Prop :=
  ∀ X w d X' w', get_blamed_names repo pick X w = (Ok (d, X'), w') → X' = X.

(** ** The vocabulary of the further properties *)

(** Line index [k] lies in one of the ranges. *)
Definition in_ranges (ds : list DiffLines) (k : Z) : Prop :=
  ∃ d, d ∈ ds ∧ start d <= k < start d + count d.

(** The ranges from [ld] on are in increasing order: each begins at or
    after the end of the one before, and ends after it. *)
Fixpoint ranges_ordered (ld : DiffLines) (ldi : list DiffLines) : Prop :=
  match ldi with
  | [] => True
  | ld' :: ldi' =>
      start ld + count ld <= start ld' ∧
      start ld + count ld < start ld' + count ld' ∧
      ranges_ordered ld' ldi'
  end.

(** [r] is a revision, not excluded, that the blame names for a line whose
    index, counted from [i], lies in one of the ranges [ds]. *)
Definition scanned (exclude : list string) (blame_lines : list string) (i : Z)
    (ds : list DiffLines) (r : string) : Prop :=
  (r ∉ exclude) ∧
  ∃ (k : nat) line, blame_lines !! k = Some line ∧ Py.before ":" line = r ∧
                    in_ranges ds (i + Z.of_nat k).

(** [c in s] for a character. *)
Fixpoint has_char (c : ascii) (s : string) : bool :=
  match s with
  | EmptyString => false
  | String x r => Ascii.eqb x c || has_char c r
  end.

(** The lines [RevisionDiff.__init__] acts on: file markers and hunk
    headers. *)
Definition is_marker (line : string) : bool := Py.startswith line "diff ".
Definition is_hunk (line : string) : bool := Py.startswith line "@".
Definition relevant (line : string) : bool := is_marker line || is_hunk line.

(** The name a file-marker line gives its [FileDiff]. *)
Definition marker_name (line : string) : string :=
  match last (Py.split line) with
  | Some tok => Py.slice_from tok 2
  | None => EmptyString
  end.

(** The number of ranges of a list of files. *)
Definition total_ranges (files : list FileDiff) : nat :=
  sum_list_with (λ fd, length (diffs fd)) files.

(** The result of a computation does not depend on the world it starts
    in. *)
Definition indep {A} (m : M A) : Prop := ∀ w w0, (m w).1 = (m w0).1.

(** A computation prints nothing and only adds commands, all in [P], to
    the trace. *)
Definition runs_only {A} (P : command → Prop) (m : M A) : Prop :=
  ∀ w, stdout (m w).2 = stdout w ∧
       ∃ cmds, trace (m w).2 = (trace w ++ cmds)%list ∧ Forall P cmds.

(** The files [RevisionDiff.get_blamed_revs] does not skip. *)
Definition considered (rust_only : bool) (fd : FileDiff) : bool :=
  negb (rust_only && negb (FileDiff_is_rust_file fd)).

(** The commands of the blame stage: a parent query, or the blame of a
    file, a [.rs] file when [rust_only] is set. *)
Definition blame_stage_cmd (rust_only : bool) (c : command) : Prop :=
  (∃ rev, c = parent_cmd rev) ∨
  (∃ f p, c = blame_cmd f p ∧ (rust_only = true → ∃ pre, f = pre ++ ".rs")).

(** The shell command that counts the commits of [author] up to revision
    number [n]. *)
Definition count_cmd (author : string) (n : Z) : string :=
  "hg log -T '1' --user " ++ Py.quote author ++ " -r ::" ++ Py.str n ++ " | wc -c".

(** The line [main] prints for an entry of [blamed_names], when the
    revision is a number and the count succeeds. *)
Definition commit_count (repo : HgRepo) (entry : string * string) : option string :=
  n ← Py.int entry.2;
  out ← sh_out repo (count_cmd entry.1 n);
  Some (Py.rstrip out).

(** The loop of [main] over [blamed_names]. *)
Definition print_counts (repo : HgRepo) (blamed_names : dict) : M unit :=
  for_each (λ _ '(name, rev),
              commit_count ← HgPApi_count_prior_commits repo name rev;
              print commit_count)
           blamed_names tt.

(** The authors the repository names for the revisions of [X]. *)
Definition blamed_authors (repo : HgRepo) (X : gset string) : gset string :=
  list_to_set (omap (author_of repo) (elements X)).

(** No character of [s] is whitespace. *)
Definition no_space (s : string) : bool :=
  Py.forallb_str (λ c, negb (Py.isspace c)) s.

(** A command that is no author query. *)
Definition not_author_cmd (c : command) : Prop := ∀ r, c ≠ author_cmd r.

(** ** The primitives on examples *)

Example find_ex1 : Py.find "@@ -10,5 +10,6 @@" "," 3 = 6. Proof. reflexivity. Qed.
Example find_ex2 : Py.find "abc" ".rs" (-3) = -1. Proof. reflexivity. Qed.
Example find_ex3 : Py.find "a.rs" ".rs" (-3) = 1. Proof. reflexivity. Qed.
Example find_ex4 : Py.find "rs" ".rs" (-3) = -1. Proof. reflexivity. Qed.
Example split_ex : Py.split " 12  345 6 " = ["12"; "345"; "6"]. Proof. reflexivity. Qed.
Example int_ex1 : Py.int "  12 " = Some 12. Proof. reflexivity. Qed.
Example int_ex2 : Py.int "1_000" = Some 1000. Proof. reflexivity. Qed.
Example int_ex3 : Py.int "1__0" = None. Proof. reflexivity. Qed.
Example int_ex4 : Py.int "-5" = Some (-5). Proof. reflexivity. Qed.
Example int_ex5 : Py.int " 8" = Some 8. Proof. reflexivity. Qed.
Example int_ex6 : Py.int (String "031" "8") = None. Proof. reflexivity. Qed.
Example int_ex7 : Py.split (String "031" "8") = ["8"]. Proof. reflexivity. Qed.
Example int_ex8 : Py.int (String "160" "8") = Some 8. Proof. reflexivity. Qed.
Example int_ex9 : Py.int "- 5" = None. Proof. reflexivity. Qed.
Example int_ex10 : Py.int (string_of_list_ascii (repeat "0"%char 4300)) = Some 0.
Proof. vm_compute. reflexivity. Qed.
Example int_ex11 : Py.int (string_of_list_ascii (repeat "0"%char 4301)) = None.
Proof. vm_compute. reflexivity. Qed.
Example str_ex : Py.str 120 = "120". Proof. vm_compute. reflexivity. Qed.
Example quote_ex : Py.quote "a b'c" = "'a b'" ++ Py.dquote ++ "'" ++ Py.dquote ++ "'c'". Proof. vm_compute. reflexivity. Qed.
Example lines_ex : Py.splitlines ("a" ++ String "013" (String "010" "b") ++ String "010" "") = ["a"; "b"]. Proof. reflexivity. Qed.
Example slice_ex : Py.slice "@@ -10,5 +10,6 @@" 4 6 = "10". Proof. reflexivity. Qed.
Example rstrip_ex : Py.rstrip " a b  " = " a b". Proof. reflexivity. Qed.

Example parse_ex :
  RevisionDiff_init "7" ["diff -r 1a -r 2b src/foo.rs"; "--- a/src/foo.rs"; "";
                         "@@ -10,5 +10,6 @@"; " ctx"; "@@ -20,3 +21,4 @@"]
  = Ok {| revision := "7";
          files := [ {| fd_revision := "7"; filename := "c/foo.rs";
                        diffs := [mkDiffLines 9 5; mkDiffLines 19 3] |} ] |}.
Proof. reflexivity. Qed.

(** ** Facts about the string primitives *)

Section Strings.

Lemma len_cons c s : Py.len (String c s) = 1 + Py.len s.
Proof. unfold Py.len. cbn [String.length]. lia. Qed.

Lemma len_nonneg s : 0 <= Py.len s.
Proof. unfold Py.len. lia. Qed.

Lemma index_of_nonneg sub t k : Py.index_of sub t = Some k → 0 <= k.
Proof.
  revert k. induction t as [|c t IH]; intros k; cbn [Py.index_of].
  - destruct (Py.startswith "" sub); intros [= <-]; lia.
  - destruct (Py.startswith (String c t) sub); [intros [= <-]; lia|].
    destruct (Py.index_of sub t) as [j|]; [|discriminate].
    intros [= <-]. specialize (IH j eq_refl). lia.
Qed.

(** Inside the string, [find] is a search of the rest. *)
Lemma find_inside s sub st :
  0 <= st <= Py.len s →
  Py.find s sub st =
    match Py.index_of sub (Py.drop (Z.to_nat st) s) with
    | Some k => st + k
    | None => -1
    end.
Proof.
  intros H. unfold Py.find.
  destruct (Z.ltb_spec st 0); [lia|].
  destruct (Z.ltb_spec (Py.len s) st); [lia|]. reflexivity.
Qed.

Lemma index_of_zero sub t :
  Py.index_of sub t = Some 0 ↔ Py.startswith t sub = true.
Proof.
  destruct t as [|c t]; cbn [Py.index_of];
    destruct (Py.startswith _ sub) eqn:Hp; split; try done.
  destruct (Py.index_of sub t) as [k|] eqn:Hk; [|done].
  apply index_of_nonneg in Hk. cbn. intros [= ?]. lia.
Qed.

(** [s.find(sub) == 0] says that [s] starts with [sub]. *)
Lemma find_0_prefix s sub :
  Py.find s sub 0 = 0 ↔ Py.startswith s sub = true.
Proof.
  rewrite find_inside by (pose proof (len_nonneg s); lia).
  change (Py.drop (Z.to_nat 0) s) with s. rewrite <- index_of_zero.
  destruct (Py.index_of sub s) as [k|] eqn:Hk.
  - split; [intros ?; f_equal; lia | by intros [= ->]].
  - split; [lia | done].
Qed.

Lemma clip_inside n i : 0 <= i <= n → Py.clip n i = i.
Proof. intros H. unfold Py.clip. destruct (Z.ltb_spec i 0); lia. Qed.

Lemma slice_inside s a b :
  0 <= a <= Py.len s → 0 <= b <= Py.len s →
  Py.slice s a b = Py.take (Z.to_nat (b - a)) (Py.drop (Z.to_nat a) s).
Proof. intros Ha Hb. unfold Py.slice. by rewrite !clip_inside. Qed.

Lemma app_nil (s : string) : "" ++ s = s.
Proof. reflexivity. Qed.

Lemma app_cons c (p x : string) : String c p ++ x = String c (p ++ x).
Proof. reflexivity. Qed.

Lemma length_app (p x : string) :
  String.length (p ++ x) = (String.length p + String.length x)%nat.
Proof.
  induction p as [|c p IH]; [done|].
  rewrite app_cons. cbn [String.length]. by rewrite IH.
Qed.

Lemma drop_length s n : String.length (Py.drop n s) = (String.length s - n)%nat.
Proof. revert s. induction n as [|n IH]; intros [|c s]; cbn; auto with lia. Qed.

Lemma take_drop n s : Py.take n s ++ Py.drop n s = s.
Proof.
  revert s. induction n as [|n IH]; intros [|c s]; try done.
  cbn [Py.take Py.drop]. by rewrite app_cons, IH.
Qed.

Lemma drop_app_length (p x : string) : Py.drop (String.length p) (p ++ x) = x.
Proof.
  induction p as [|c p IH]; [by destruct x|].
  rewrite app_cons. exact IH.
Qed.

Lemma startswith_app s sub :
  Py.startswith s sub = true ↔ ∃ r, s = sub ++ r.
Proof.
  revert s. induction sub as [|a sub IH]; intros s; cbn [Py.startswith].
  - split; [by exists s | done].
  - setoid_rewrite app_cons. destruct s as [|b s].
    + split; [done | by intros [? ?]].
    + rewrite andb_true_iff, Ascii.eqb_eq, IH. split.
      * intros [<- [r ->]]. by exists r.
      * intros [r [= <- ->]]. split; [done | by exists r].
Qed.

Lemma index_of_Some sub t k :
  Py.index_of sub t = Some k →
  0 <= k ∧ (Z.to_nat k + String.length sub <= String.length t)%nat.
Proof.
  revert k. induction t as [|c t IH]; intros k; cbn [Py.index_of].
  - destruct (Py.startswith "" sub) eqn:Hs; [|done]. intros [= <-].
    apply startswith_app in Hs as [r Hr].
    apply (f_equal String.length) in Hr. rewrite length_app in Hr. cbn in *. lia.
  - destruct (Py.startswith (String c t) sub) eqn:Hs.
    + intros [= <-]. apply startswith_app in Hs as [r Hr].
      apply (f_equal String.length) in Hr. rewrite length_app in Hr. cbn in *. lia.
    + destruct (Py.index_of sub t) as [j|]; [|done].
      intros [= <-]. destruct (IH j eq_refl). cbn [String.length]. lia.
Qed.

(** [s.find(".rs", -3) != -1] says that [s] ends in [.rs]. *)
Lemma find_rs_suffix s :
  Py.find s ".rs" (-3) ≠ -1 ↔ ∃ p, s = p ++ ".rs".
Proof.
  unfold Py.find. change (-3 <? 0) with true. cbv match.
  pose proof (len_nonneg s) as Hn.
  destruct (Z.ltb_spec (Py.len s) (0 `max` (-3 + Py.len s))); [lia|].
  set (st := Z.to_nat (0 `max` (-3 + Py.len s))).
  assert (String.length (Py.drop st s) <= 3)%nat as Hlen
    by (rewrite drop_length; unfold st, Py.len; lia).
  split.
  - destruct (Py.index_of ".rs" (Py.drop st s)) as [k|] eqn:Hk; [|done].
    intros _. destruct (index_of_Some _ _ _ Hk) as [Hk0 Hk3].
    cbn [String.length] in Hk3. assert (k = 0) as -> by lia.
    apply index_of_zero, startswith_app in Hk as [r Hr].
    assert (r = "") as ->.
    { apply (f_equal String.length) in Hr. rewrite length_app in Hr.
      cbn [String.length] in Hr. destruct r; [done | cbn in Hr; lia]. }
    exists (Py.take st s). rewrite <- (take_drop st s) at 1. by rewrite Hr.
  - intros [p ->].
    assert (st = String.length p) as ->.
    { unfold st, Py.len. rewrite length_app. cbn [String.length]. lia. }
    rewrite drop_app_length. cbn. lia.
Qed.

End Strings.

(** Bounds on the length of a string with a known beginning. *)
Ltac len_bounds :=
  cbv [String.append]; rewrite ?len_cons;
  match goal with |- context [Py.len ?x] => pose proof (len_nonneg x) end; lia.

(** ** DiffHunkParser *)

Section Parser.

Implicit Types (revision line : string) (files : list FileDiff).

Lemma append_to_last_snoc files f d :
  append_to_last (files ++ [f])%list d =
    Ok (files ++ [ {| fd_revision := fd_revision f; filename := filename f;
                      diffs := (diffs f ++ [d])%list |} ])%list.
Proof.
  induction files as [|g files IH]; [done|].
  cbn [app append_to_last]. rewrite IH.
  destruct files; reflexivity.
Qed.

(** A line that starts with [@] is no file marker. *)
Lemma hunk_line_not_marker r : bool_decide (Py.find (String "@" r) "diff " 0 = 0) = false.
Proof. apply bool_decide_eq_false. rewrite find_0_prefix. cbn. discriminate. Qed.

Lemma marker_line_is_marker r : bool_decide (Py.find ("diff " ++ r) "diff " 0 = 0) = true.
Proof. apply bool_decide_eq_true. rewrite find_0_prefix. reflexivity. Qed.

Lemma split_marker r : Py.split ("diff " ++ r) = "diff" :: Py.split r.
Proof. reflexivity. Qed.

Lemma last_token_marker r : ∃ tok, last_token ("diff " ++ r) = Ok tok.
Proof.
  unfold last_token. rewrite split_marker.
  destruct (last ("diff" :: Py.split r)) as [tok|] eqn:H; [by eexists|].
  by apply last_None in H.
Qed.

(** The file-marker line opens a new [FileDiff]. *)
Lemma parse_line_marker revision files r :
  ∃ tok, last_token ("diff " ++ r) = Ok tok ∧
    parse_line revision files ("diff " ++ r) =
      Ok (files ++ [FileDiff_init revision (Py.slice_from tok 2)])%list.
Proof.
  destruct (last_token_marker r) as [tok Htok]. exists tok. split; [done|].
  unfold parse_line. change ("diff " ++ r) with (String "d" ("iff " ++ r)) at 1.
  cbv match. change (String "d" ("iff " ++ r)) with ("diff " ++ r).
  rewrite marker_line_is_marker, Htok. reflexivity.
Qed.

Lemma startswith_at line : Py.startswith line "@" = true → ∃ r, line = String "@" r.
Proof.
  destruct line as [|c r]; [done|]. cbn [Py.startswith].
  rewrite andb_true_r. intros <-%Ascii.eqb_eq. by eexists.
Qed.

(** A hunk header whose two numbers parse appends one range to the last
    file. *)
Lemma parse_line_hunk revision files line comma old_line_start diff_size :
  Py.startswith line "@" = true →
  Py.find line "," 3 = comma →
  py_int (Py.slice line 4 comma) = Ok old_line_start →
  py_int (Py.slice line (comma + 1) (Py.find line " " 3)) = Ok diff_size →
  parse_line revision files line =
    append_to_last files (DiffLines_init old_line_start diff_size).
Proof.
  intros [r ->]%startswith_at <-. unfold parse_line.
  rewrite hunk_line_not_marker. intros -> ->. reflexivity.
Qed.

Lemma parse_line_hunk_10_5 revision files x :
  parse_line revision files ("@@ -10,5 +" ++ x) =
    append_to_last files (DiffLines_init 10 5).
Proof.
  assert (Py.find ("@@ -10,5 +" ++ x) "," 3 = 6) as Hc
    by (rewrite find_inside by len_bounds; reflexivity).
  assert (Py.find ("@@ -10,5 +" ++ x) " " 3 = 8) as Hs
    by (rewrite find_inside by len_bounds; reflexivity).
  apply parse_line_hunk with (comma := 6); [done|done|..].
  - rewrite slice_inside by len_bounds. reflexivity.
  - rewrite Hs, slice_inside by len_bounds. reflexivity.
Qed.

Lemma parse_line_hunk_20_3 revision files x :
  parse_line revision files ("@@ -20,3 +" ++ x) =
    append_to_last files (DiffLines_init 20 3).
Proof.
  assert (Py.find ("@@ -20,3 +" ++ x) "," 3 = 6) as Hc
    by (rewrite find_inside by len_bounds; reflexivity).
  assert (Py.find ("@@ -20,3 +" ++ x) " " 3 = 8) as Hs
    by (rewrite find_inside by len_bounds; reflexivity).
  apply parse_line_hunk with (comma := 6); [done|done|..].
  - rewrite slice_inside by len_bounds. reflexivity.
  - rewrite Hs, slice_inside by len_bounds. reflexivity.
Qed.

(** C2: a file-marker line followed by the hunk headers [@@ -10,5 +.. @@]
    and [@@ -20,3 +.. @@], whatever follows the old-side range, parses to
    exactly one [FileDiff], named by the last token of the marker line
    less its first two characters, whose ranges are [{start:9,count:5}]
    and [{start:19,count:3}], in that order. *)
Theorem C2_two_hunks_one_file revision marker x y :
  ∃ tok, last_token ("diff " ++ marker) = Ok tok ∧
    RevisionDiff_init revision
      ["diff " ++ marker; "@@ -10,5 +" ++ x; "@@ -20,3 +" ++ y] =
    Ok {| revision := revision;
          files := [ {| fd_revision := revision;
                        filename := Py.slice_from tok 2;
                        diffs := [ {| start := 9; count := 5 |};
                                   {| start := 19; count := 3 |} ] |} ] |}.
Proof.
  destruct (parse_line_marker revision [] marker) as (tok & Htok & Hm).
  exists tok. split; [done|].
  unfold RevisionDiff_init. cbn [parse_lines].
  rewrite Hm. cbn [mbind result_bind Ok app].
  rewrite parse_line_hunk_10_5. cbn [append_to_last mbind result_bind Ok].
  rewrite parse_line_hunk_20_3. reflexivity.
Qed.

(** *** A hunk header before any file marker *)






End Parser.

(** ** Running commands *)

Section Commands.

Variable repo : HgRepo.

Lemma bind_ok {A B} (m : M A) (f : A → M B) w a w' :
  m w = (Ok a, w') → (m ≫= f) w = f a w'.
Proof. unfold mbind, M_bind. by intros ->. Qed.

Lemma bind_raise {A B} (m : M A) (f : A → M B) w e w' :
  m w = (Raise e, w') → (m ≫= f) w = (Raise e, w').
Proof. unfold mbind, M_bind. by intros ->. Qed.

Lemma bind_inv {A B} (m : M A) (f : A → M B) w b w' :
  (m ≫= f) w = (Ok b, w') → ∃ a w1, m w = (Ok a, w1) ∧ f a w1 = (Ok b, w').
Proof.
  unfold mbind, M_bind. destruct (m w) as [[e|a] w1]; [done|]. eauto.
Qed.

Lemma run_command_ok args out w :
  hg_out repo args = Some out →
  HgPApi_run_command repo args w = (Ok out, ran (Hg args) w).
Proof. unfold HgPApi_run_command, check_output. by intros ->. Qed.

Lemma run_command_failed args w :
  hg_out repo args = None →
  HgPApi_run_command repo args w =
    (Raise (CalledProcessError (Hg args)), ran (Hg args) w).
Proof. unfold HgPApi_run_command, check_output. by intros ->. Qed.

Lemma run_command_inv args out w w' :
  HgPApi_run_command repo args w = (Ok out, w') →
  hg_out repo args = Some out ∧ w' = ran (Hg args) w.
Proof.
  unfold HgPApi_run_command, check_output.
  destruct (hg_out repo args); [|done]. by intros [= -> <-].
Qed.

End Commands.

(** ** BlameIntersector *)

Section BlameIntersector.

Variable repo : HgRepo.

(** Once parent and blame are known, what is left of
    [FileDiff.get_blamed_revs] is the scan. *)
Lemma FileDiff_get_blamed_revs_ok fd exclude w parent blame_raw :
  hg_out repo ["log"; "-T"; "{p1rev}"; "-r"; fd_revision fd] = Some parent →
  hg_out repo ["annotate"; "-r"; parent; filename fd] = Some blame_raw →
  FileDiff_get_blamed_revs repo fd exclude w =
    (match diffs fd with
     | [] => Raise StopIteration
     | ld :: ldi => Ok (blame_scan exclude (Py.splitlines blame_raw) 0 ld ldi ∅)
     end,
     ran (blame_cmd (filename fd) parent) (ran (parent_cmd (fd_revision fd)) w)).
Proof.
  intros Hp Hb. unfold FileDiff_get_blamed_revs, HgPApi_parent, HgPApi_blame.
  erewrite bind_ok by (by apply run_command_ok).
  erewrite bind_ok by (by apply run_command_ok).
  by destruct (diffs fd).
Qed.

Lemma FileDiff_get_blamed_revs_cons revision fname ld ldi exclude w parent blame_raw :
  hg_out repo ["log"; "-T"; "{p1rev}"; "-r"; revision] = Some parent →
  hg_out repo ["annotate"; "-r"; parent; fname] = Some blame_raw →
  FileDiff_get_blamed_revs repo
    {| fd_revision := revision; filename := fname; diffs := ld :: ldi |}
    exclude w =
    (Ok (blame_scan exclude (Py.splitlines blame_raw) 0 ld ldi ∅),
     ran (blame_cmd fname parent) (ran (parent_cmd revision) w)).
Proof. intros Hp Hb. by erewrite FileDiff_get_blamed_revs_ok. Qed.

(** C1: with blame listing [[r0,r1,r2,r3,r4]], the single range
    [{start:2,count:2}] and nothing excluded, the blamed revisions are
    exactly [{r2,r3}]. *)
Theorem C1_blame_intersection revision fname w parent blame_raw r0 r1 r2 r3 r4 :
  hg_out repo ["log"; "-T"; "{p1rev}"; "-r"; revision] = Some parent →
  hg_out repo ["annotate"; "-r"; parent; fname] = Some blame_raw →
  blame_listing blame_raw = [r0; r1; r2; r3; r4] →
  (FileDiff_get_blamed_revs repo
     {| fd_revision := revision; filename := fname;
        diffs := [ {| start := 2; count := 2 |} ] |} [] w).1
  = Ok ({[r2; r3]} : gset string).
Proof.
  intros Hp Hb Hl.
  erewrite FileDiff_get_blamed_revs_ok by eassumption.
  cbn [diffs fst]. f_equal. unfold blame_listing in Hl.
  destruct (Py.splitlines blame_raw) as [|l0 [|l1 [|l2 [|l3 [|l4 [|]]]]]];
    try discriminate Hl.
  injection Hl as <- <- <- <- <-.
  cbn [blame_scan start count head tail].
  repeat first
    [ rewrite bool_decide_eq_false_2 by lia
    | rewrite bool_decide_eq_true_2 by lia
    | rewrite bool_decide_eq_true_2 by apply not_elem_of_nil
    | progress cbn [blame_scan start count head tail] ].
  set_solver.
Qed.

(** With no range, no run of [FileDiff.get_blamed_revs] returns a set. *)
Lemma FileDiff_get_blamed_revs_no_ranges revision fname exclude w :
  ∃ e, (FileDiff_get_blamed_revs repo (FileDiff_init revision fname) exclude w).1
       = Raise e.
Proof.
  unfold FileDiff_get_blamed_revs, HgPApi_parent, HgPApi_blame.
  cbn [FileDiff_init fd_revision filename diffs].
  destruct (hg_out repo ["log"; "-T"; "{p1rev}"; "-r"; revision]) as [p|] eqn:Hp.
  - erewrite bind_ok by (by apply run_command_ok).
    destruct (hg_out repo ["annotate"; "-r"; p; fname]) as [b|] eqn:Hb.
    + erewrite bind_ok by (by apply run_command_ok). by eexists.
    + erewrite bind_raise by (by apply run_command_failed). by eexists.
  - erewrite bind_raise by (by apply run_command_failed). by eexists.
Qed.

End BlameIntersector.

(** ** RevisionAttributor *)

Section RevisionAttributor.

Variable repo : HgRepo.

Implicit Types (exclude : list string) (s : gset string).

Lemma for_each_inv {A S} (P : S → Prop) (body : S → A → M S) l :
  (∀ a x w a' w', P a → body a x w = (Ok a', w') → P a') →
  ∀ a w a' w', P a → for_each body l a w = (Ok a', w') → P a'.
Proof.
  intros Hbody. induction l as [|x l IH]; intros a w a' w' Ha; cbn [for_each].
  - by intros [= <- _].
  - intros (a1 & w1 & H1 & H2)%bind_inv. eauto.
Qed.

(** The scan adds no excluded revision. *)
Lemma blame_scan_excluded exclude blame_lines i ld ldi s r :
  r ∈ blame_scan exclude blame_lines i ld ldi s → r ∈ s ∨ r ∉ exclude.
Proof.
  revert i ld ldi s.
  induction blame_lines as [|line blame_lines IH]; intros i ld ldi s;
    cbn [blame_scan]; [by left|].
  destruct (bool_decide (i >= start ld + count ld));
    [destruct ldi as [|ld' ldi]; cbn [head tail]; [by left|] |];
    intros [Hr | Hr]%IH; auto;
    repeat case_bool_decide; set_solver.
Qed.

Lemma FileDiff_get_blamed_revs_excluded fd exclude w s w' r :
  FileDiff_get_blamed_revs repo fd exclude w = (Ok s, w') →
  r ∈ s → r ∉ exclude.
Proof.
  unfold FileDiff_get_blamed_revs.
  intros (p & w1 & _ & (b & w2 & _ & H)%bind_inv)%bind_inv.
  destruct (diffs fd) as [|ld ldi]; [done|].
  injection H as <- _. intros [Hr | Hr]%blame_scan_excluded; set_solver.
Qed.

Lemma RevisionDiff_get_blamed_revs_excluded rd exclude rust_only w s w' r :
  RevisionDiff_get_blamed_revs repo rd exclude rust_only w = (Ok s, w') →
  r ∈ s → r ∉ exclude.
Proof.
  intros H Hr. revert r Hr. unfold RevisionDiff_get_blamed_revs in H.
  eapply (for_each_inv (λ s, ∀ r, r ∈ s → r ∉ exclude)); [| |exact H]; [|set_solver].
  intros s0 fd w0 s1 w1 Hs0.
  cbv beta. destruct (rust_only && negb (FileDiff_is_rust_file fd)).
  - by intros [= <- _].
  - intros (s2 & w2 & H2 & [= <- _])%bind_inv r [Hr | Hr]%elem_of_union; [auto|].
    eapply FileDiff_get_blamed_revs_excluded; eauto.
Qed.

(** The exclusion holds of whatever list is passed as [exclude]. *)
Lemma get_blamed_revs_excluded rev_diffs exclude rust_only w s w' r :
  get_blamed_revs repo rev_diffs exclude rust_only w = (Ok s, w') →
  r ∈ s → r ∉ exclude.
Proof.
  intros H Hr. revert r Hr. unfold get_blamed_revs in H.
  eapply (for_each_inv (λ s, ∀ r, r ∈ s → r ∉ exclude)); [| |exact H]; [|set_solver].
  intros s0 rd w0 s1 w1 Hs0. cbv beta.
  intros (s2 & w2 & H2 & [= <- _])%bind_inv r [Hr | Hr]%elem_of_union; [auto|].
  eapply RevisionDiff_get_blamed_revs_excluded; eauto.
Qed.


End RevisionAttributor.


(** ** The rust-only filter *)

Section RustFilter.

Variable repo : HgRepo.

(** [is_rust_file] holds of the names that end in [.rs]. *)
Lemma is_rust_file_suffix fd :
  FileDiff_is_rust_file fd = true ↔ ∃ p, filename fd = p ++ ".rs".
Proof.
  unfold FileDiff_is_rust_file. rewrite bool_decide_eq_true.
  apply find_rs_suffix.
Qed.

(** C8: for the files [foo.rs] and [foo.py] of one revision, one range
    each, the rust-only run returns the blamed revisions of [foo.rs] alone
    and runs two commands, the parent query and the blame of [foo.rs]; the
    run without the flag returns the union for both files.  The filter
    keeps the files whose name ends in [.rs]. *)
Theorem C8_rust_only_filter revision d_rs d_py exclude w parent raw_rs raw_py :
  hg_out repo ["log"; "-T"; "{p1rev}"; "-r"; revision] = Some parent →
  hg_out repo ["annotate"; "-r"; parent; "foo.rs"] = Some raw_rs →
  hg_out repo ["annotate"; "-r"; parent; "foo.py"] = Some raw_py →
  let rd := {| revision := revision;
               files := [ {| fd_revision := revision; filename := "foo.rs";
                             diffs := [d_rs] |};
                          {| fd_revision := revision; filename := "foo.py";
                             diffs := [d_py] |} ] |} in
  let blamed_rs := blame_scan exclude (Py.splitlines raw_rs) 0 d_rs [] ∅ in
  let blamed_py := blame_scan exclude (Py.splitlines raw_py) 0 d_py [] ∅ in
  RevisionDiff_get_blamed_revs repo rd exclude true w =
    (Ok blamed_rs,
     ran (blame_cmd "foo.rs" parent) (ran (parent_cmd revision) w))
  ∧ RevisionDiff_get_blamed_revs repo rd exclude false w =
    (Ok (blamed_rs ∪ blamed_py),
     ran (blame_cmd "foo.py" parent) (ran (parent_cmd revision)
       (ran (blame_cmd "foo.rs" parent) (ran (parent_cmd revision) w))))
  ∧ ∀ fd, FileDiff_is_rust_file fd = true ↔ ∃ p, filename fd = p ++ ".rs".
Proof.
  intros Hp Hrs Hpy rd blamed_rs blamed_py.
  split; [|split; [|apply is_rust_file_suffix]];
    unfold RevisionDiff_get_blamed_revs; cbn [rd files for_each].
  - change (FileDiff_is_rust_file (mkFileDiff _ "foo.rs" _)) with true.
    change (FileDiff_is_rust_file (mkFileDiff _ "foo.py" _)) with false.
    cbn [andb negb].
    erewrite bind_ok by (erewrite bind_ok;
      [reflexivity | by apply FileDiff_get_blamed_revs_cons]).
    unfold mret, M_ret. by rewrite (left_id_L ∅ (∪)).
  - cbn [andb].
    erewrite bind_ok by (erewrite bind_ok;
      [reflexivity | by apply FileDiff_get_blamed_revs_cons]).
    erewrite bind_ok by (erewrite bind_ok;
      [reflexivity | by apply FileDiff_get_blamed_revs_cons]).
    unfold mret, M_ret. by rewrite (left_id_L ∅ (∪)).
Qed.

End RustFilter.

Lemma C8_rust_only_filter_witness :
  (RevisionDiff_get_blamed_revs Demo.repo
     {| revision := "12";
        files := [ {| fd_revision := "12"; filename := "foo.rs";
                      diffs := [ {| start := 2; count := 2 |} ] |};
                   {| fd_revision := "12"; filename := "foo.py";
                      diffs := [ {| start := 1; count := 1 |} ] |} ] |}
     ["10"; "12"] true Demo.w0).1 = Ok ({[" 8"]} : gset string).
Proof.
  destruct (C8_rust_only_filter Demo.repo "12"
              {| start := 2; count := 2 |} {| start := 1; count := 1 |}
              ["10"; "12"] Demo.w0 "11"
              (Demo.unlines [" 3: let a = 0;"; " 5: let b = 0;"; " 8: let c = 0;";
                             "10: let d = 0;"; " 3: let e = 0;"])
              (Demo.unlines ["10: x = 2"; " 7: y = 3"])
              eq_refl eq_refl eq_refl) as [-> _].
  vm_compute. reflexivity.
Defined.

(** ** Orchestrator *)

Section Orchestrator.

Variable repo : HgRepo.
Variable pick : gset string → nat.

(** C9: when the keyword search names no revision, [main] returns at
    once: nothing is printed, and the search is the only command run. *)
Theorem C9_no_revisions_no_output keyword rust_only w out :
  hg_out repo ["log"; "-T"; "{rev} "; "--keyword"; keyword] = Some out →
  Py.split out = [] →
  main repo pick keyword rust_only w =
    (Ok tt, {| trace := (trace w ++ [keyword_cmd keyword])%list;
               stdout := stdout w |}).
Proof.
  intros Hout Hsplit. unfold main, HgPApi_revs_from_keyword.
  erewrite bind_ok by (erewrite bind_ok;
    [reflexivity | by apply run_command_ok]).
  by rewrite Hsplit.
Qed.

End Orchestrator.

Lemma C9_no_revisions_no_output_witness :
  main {| hg_out := λ _, Some " "; sh_out := λ _, None |} Demo.pick_first
       "1234" false Demo.w0
  = (Ok tt, {| trace := [keyword_cmd "1234"]; stdout := [] |}).
Proof.
  apply (C9_no_revisions_no_output
           {| hg_out := λ _, Some " "; sh_out := λ _, None |} Demo.pick_first
           "1234" false Demo.w0 " "); reflexivity.
Defined.

(** ** AuthorReducer *)

Section Dict.

Implicit Types (d : dict) (k v : string).

Lemma dict_get_set_eq d k v : dict_get (dict_set d k v) k = Some v.
Proof.
  induction d as [|[k' v'] d IH]; cbn [dict_set dict_get].
  - by rewrite bool_decide_eq_true_2.
  - case_bool_decide as Hk; cbn [dict_get].
    + by rewrite bool_decide_eq_true_2.
    + by rewrite bool_decide_eq_false_2.
Qed.

Lemma dict_get_set_ne d k v k' :
  k ≠ k' → dict_get (dict_set d k v) k' = dict_get d k'.
Proof.
  intros Hne. induction d as [|[k0 v0] d IH]; cbn [dict_set dict_get].
  - by rewrite bool_decide_eq_false_2.
  - case_bool_decide as Hk; cbn [dict_get]; [subst k0|].
    + by rewrite !bool_decide_eq_false_2.
    + by rewrite IH.
Qed.

Lemma dict_get_None d k : dict_get d k = None ↔ k ∉ dict_keys d.
Proof.
  unfold dict_keys. induction d as [|[k' v'] d IH]; cbn [dict_get fmap list_fmap fst].
  - split; [intros _; apply not_elem_of_nil | done].
  - rewrite not_elem_of_cons. case_bool_decide; [|rewrite IH]; naive_solver.
Qed.

Lemma dict_keys_set_old d k v :
  is_Some (dict_get d k) → dict_keys (dict_set d k v) = dict_keys d.
Proof.
  unfold dict_keys. induction d as [|[k' v'] d IH]; cbn [dict_get dict_set].
  - by intros [? ?].
  - case_bool_decide as Hk; cbn [fmap list_fmap fst]; [by subst|].
    intros H. by rewrite IH.
Qed.

Lemma dict_keys_set_new d k v :
  dict_get d k = None → dict_keys (dict_set d k v) = (dict_keys d ++ [k])%list.
Proof.
  unfold dict_keys. induction d as [|[k' v'] d IH]; cbn [dict_get dict_set]; [done|].
  case_bool_decide as Hk; [done|]. cbn [fmap list_fmap fst app].
  intros H. by rewrite IH.
Qed.

Lemma dict_set_NoDup d k v : NoDup (dict_keys d) → NoDup (dict_keys (dict_set d k v)).
Proof.
  intros Hd. destruct (dict_get d k) as [v0|] eqn:Hk.
  - by rewrite dict_keys_set_old.
  - rewrite dict_keys_set_new by done. apply NoDup_app. split_and!; [done| |].
    + intros x Hx ->%list_elem_of_singleton. by apply dict_get_None in Hk.
    + apply NoDup_singleton.
Qed.

End Dict.

Section SetPop.

Variable pick : gset string → nat.

Lemma set_pop_elem s : size s ≠ 0%nat → set_pop pick s ∈ s.
Proof.
  intros Hs. unfold set_pop. apply elem_of_elements, list_elem_of_In, nth_In.
  apply Nat.mod_upper_bound. exact Hs.
Qed.

Lemma pop_order_spec fuel s :
  (size s ≤ fuel)%nat →
  NoDup (pop_order pick fuel s) ∧ ∀ r, r ∈ pop_order pick fuel s ↔ r ∈ s.
Proof.
  revert s. induction fuel as [|fuel IH]; intros s Hs; cbn [pop_order].
  - assert (s = ∅) as -> by (apply leibniz_equiv, size_empty_iff; lia).
    split; [constructor | set_solver].
  - case_bool_decide as Hz.
    + apply size_empty_iff, leibniz_equiv in Hz as ->.
      split; [constructor | set_solver].
    + pose proof (set_pop_elem s Hz) as Hin. set (rev := set_pop pick s) in *.
      assert (size (s ∖ {[rev]}) ≤ fuel)%nat as Hle.
      { rewrite size_difference by set_solver. rewrite size_singleton. lia. }
      destruct (IH _ Hle) as [Hnd Hmem]. split.
      * constructor; [rewrite Hmem; set_solver | done].
      * intros r. rewrite elem_of_cons, Hmem.
        destruct (decide (r = rev)); set_solver.
Qed.

End SetPop.

Section AuthorReducer.

Variable repo : HgRepo.

Implicit Types (d : dict) (X : gset string) (r rev a : string).

(** One turn of the loop, spelled out. *)
Lemma blamed_names_update_eq d rev w :
  blamed_names_update repo d rev w =
    match author_of repo rev with
    | None => (Raise (CalledProcessError (author_cmd rev)), ran (author_cmd rev) w)
    | Some a =>
        (match dict_get d a with
         | None => Ok (dict_set d a rev)
         | Some cur =>
             match Py.int rev with
             | None => Raise (ValueError rev)
             | Some n =>
                 match Py.int cur with
                 | None => Raise (ValueError cur)
                 | Some m =>
                     if bool_decide (n < m) then Ok (dict_set d a rev) else Ok d
                 end
             end
         end, ran (author_cmd rev) w)
    end.
Proof.
  unfold blamed_names_update, HgPApi_author, author_of.
  destruct (hg_out repo _) as [a|] eqn:Ha.
  - erewrite bind_ok by (by apply run_command_ok).
    destruct (dict_get d a) as [cur|]; [|reflexivity].
    unfold py_int, lift, mbind, M_bind.
    destruct (Py.int rev) as [n|]; [|reflexivity].
    destruct (Py.int cur) as [m|]; [|reflexivity].
    unfold Ok. cbv beta iota. case_bool_decide; reflexivity.
  - by erewrite bind_raise by (by apply run_command_failed).
Qed.

Lemma blamed_names_update_inv d rev w d' w' :
  blamed_names_update repo d rev w = (Ok d', w') →
  ∃ a, author_of repo rev = Some a ∧
    ((dict_get d a = None ∧ d' = dict_set d a rev) ∨
     ∃ cur n m, dict_get d a = Some cur ∧ Py.int rev = Some n ∧
                Py.int cur = Some m ∧
                ((n < m ∧ d' = dict_set d a rev) ∨ (m <= n ∧ d' = d))).
Proof.
  rewrite blamed_names_update_eq.
  destruct (author_of repo rev) as [a|]; [|done]. intros H. exists a. split; [done|].
  destruct (dict_get d a) as [cur|]; [|left; by injection H as <- _].
  destruct (Py.int rev) as [n|] eqn:Hn; [|done].
  destruct (Py.int cur) as [m|] eqn:Hm; [|done].
  right. exists cur, n, m. split_and!; try done.
  case_bool_decide; [left|right]; injection H as <- _; split; done || lia.
Qed.

(** A turn takes an attribution of [X] to one of [X] and the revision
    popped. *)
Lemma blamed_names_update_represents X d rev w d' w' :
  represents repo X d → rev ∉ X →
  blamed_names_update repo d rev w = (Ok d', w') →
  represents repo ({[rev]} ∪ X) d'.
Proof.
  intros (Hnd & Hent & Hcov) Hrev
    (a & Ha & [[Hget ->] | (cur & n & m & Hget & Hn & Hm & Hcase)])%blamed_names_update_inv.
  - split_and!; [by apply dict_set_NoDup | |].
    + intros a' r. destruct (decide (a = a')) as [<-|Hne].
      * rewrite dict_get_set_eq. intros [= <-]. split_and!; [set_solver|done|].
        intros r' [->%elem_of_singleton|Hr']%elem_of_union Ha' Hr; [done|].
        destruct (Hcov r' Hr') as (a0 & Ha0 & [v Hv]). congruence.
      * rewrite dict_get_set_ne by done. intros (Hr & Har & Hmin)%Hent.
        split_and!; [set_solver|done|].
        intros r' [->%elem_of_singleton|Hr']%elem_of_union Ha' Hne'; [congruence|auto].
    + intros r [->%elem_of_singleton|Hr]%elem_of_union.
      * exists a. by rewrite dict_get_set_eq.
      * destruct (Hcov r Hr) as (a0 & Ha0 & Hv). exists a0. split; [done|].
        destruct (decide (a = a0)) as [<-|Hne];
          [by rewrite dict_get_set_eq | by rewrite dict_get_set_ne].
  - destruct (Hent a cur Hget) as (Hcur & Hacur & Hmin).
    destruct Hcase as [[Hlt ->] | [Hle ->]].
    + split_and!; [by apply dict_set_NoDup | |].
      * intros a' r. destruct (decide (a = a')) as [<-|Hne].
        -- rewrite dict_get_set_eq. intros [= <-]. split_and!; [set_solver|done|].
           intros r' [->%elem_of_singleton|Hr']%elem_of_union Ha' Hr; [done|].
           destruct (decide (r' = cur)) as [->|Hne].
           ++ exists n, m. split_and!; done || lia.
           ++ destruct (Hmin r' Hr' Ha' Hne) as (m0 & n' & Hm0 & Hn' & Hle).
              exists n, n'. split_and!; try done. simplify_eq. lia.
        -- rewrite dict_get_set_ne by done. intros (Hr & Har & Hmin')%Hent.
           split_and!; [set_solver|done|].
           intros r' [->%elem_of_singleton|Hr']%elem_of_union Ha' Hne';
             [congruence|auto].
      * intros r [->%elem_of_singleton|Hr]%elem_of_union.
        -- exists a. by rewrite dict_get_set_eq.
        -- destruct (Hcov r Hr) as (a0 & Ha0 & Hv). exists a0. split; [done|].
           destruct (decide (a = a0)) as [<-|Hne];
             [by rewrite dict_get_set_eq | by rewrite dict_get_set_ne].
    + split_and!; [done| |].
      * intros a' r Hget'. destruct (Hent _ _ Hget') as (Hr & Har & Hmin').
        split_and!; [set_solver|done|].
        intros r' [->%elem_of_singleton|Hr']%elem_of_union Ha' Hne'; [|auto].
        assert (a' = a) as -> by congruence.
        assert (r = cur) as -> by congruence.
        exists m, n. done.
      * intros r [->%elem_of_singleton|Hr]%elem_of_union; [|auto].
        exists a. by rewrite Hget.
Qed.

Lemma represents_empty : represents repo ∅ [].
Proof. split_and!; [constructor | done | set_solver]. Qed.

(** The turns of the loop, one after the other. *)
Lemma reduce_represents l X d w d' w' :
  NoDup l → (∀ r, r ∈ l → r ∉ X) → represents repo X d →
  for_each (blamed_names_update repo) l d w = (Ok d', w') →
  represents repo (list_to_set l ∪ X) d'.
Proof.
  revert X d w. induction l as [|rev l IH]; intros X d w Hnd Hdisj Hrep;
    cbn [for_each list_to_set].
  - intros [= <- _]. by rewrite (left_id_L ∅ (∪)).
  - intros (d1 & w1 & H1 & H2)%bind_inv. apply NoDup_cons in Hnd as [Hrev Hnd].
    eapply blamed_names_update_represents in H1; [|done|set_solver].
    eapply IH in H2; [|done| |done].
    + by replace ({[rev]} ∪ list_to_set l ∪ X) with (list_to_set l ∪ ({[rev]} ∪ X))
        by set_solver.
    + intros r Hr [->%elem_of_singleton|?]%elem_of_union; [done|].
      eapply Hdisj; [by right | done].
Qed.

(** On a reducible set every turn returns. *)
Lemma reduce_total l X d w :
  NoDup l → (∀ r, r ∈ l → r ∉ X) → represents repo X d →
  reducible repo (list_to_set l ∪ X) →
  ∃ d' w', for_each (blamed_names_update repo) l d w = (Ok d', w').
Proof.
  revert X d w. induction l as [|rev l IH]; intros X d w Hnd Hdisj Hrep Hred;
    cbn [for_each list_to_set] in *; [by eexists _, _|].
  apply NoDup_cons in Hnd as [Hrev Hnd].
  assert (∃ d1 w1, blamed_names_update repo d rev w = (Ok d1, w1)) as (d1 & w1 & H1).
  { rewrite blamed_names_update_eq. destruct Hred as [Hauth Hnum].
    destruct (Hauth rev) as [a Ha]; [set_solver|]. rewrite Ha.
    destruct (dict_get d a) as [cur|] eqn:Hget; [|by eexists _, _].
    destruct Hrep as (_ & Hent & _). destruct (Hent a cur Hget) as (Hcur & Hacur & _).
    destruct (Hnum rev cur) as [[n ->] [m ->]];
      [set_solver | set_solver | | congruence |].
    - intros ->. by eapply Hdisj; [left|].
    - case_bool_decide; by eexists _, _. }
  erewrite bind_ok by done.
  eapply blamed_names_update_represents in H1 as Hrep1; [|done|set_solver].
  eapply (IH _ _ w1) in Hrep1 as (d' & w' & H2); [by eexists _, _|done| |].
  - intros r Hr [->%elem_of_singleton|?]%elem_of_union; [done|].
    eapply Hdisj; [by right | done].
  - by replace (list_to_set l ∪ ({[rev]} ∪ X)) with ({[rev]} ∪ list_to_set l ∪ X)
      by set_solver.
Qed.

(** An attribution of a set shows the set reducible. *)
Lemma represents_reducible X d : represents repo X d → reducible repo X.
Proof.
  intros (_ & Hent & Hcov). split.
  - intros r Hr. destruct (Hcov r Hr) as (a & -> & _). by eexists.
  - intros r r' Hr Hr' Hne Haut.
    destruct (Hcov r Hr) as (a & Ha & [r0 Hr0]).
    destruct (Hent a r0 Hr0) as (_ & _ & Hmin).
    assert (author_of repo r' = Some a) as Ha' by congruence.
    destruct (decide (r = r0)) as [->|Hr0r]; [|destruct (decide (r' = r0)) as [->|Hr0r']].
    + destruct (Hmin r' Hr' Ha') as (n & n' & -> & -> & _); [done|]. by split.
    + destruct (Hmin r Hr Ha) as (n & n' & -> & -> & _); [done|]. by split.
    + destruct (Hmin r Hr Ha) as (n & n' & _ & -> & _); [done|].
      destruct (Hmin r' Hr' Ha') as (m & m' & _ & -> & _); [done|]. by split.
Qed.

(** The loop is its turns over the pop order; it leaves the set empty. *)
Lemma get_blamed_names_loop_eq pick fuel X d w :
  (size X ≤ fuel)%nat →
  get_blamed_names_loop repo pick fuel X d w =
    (d' ← for_each (blamed_names_update repo) (pop_order pick fuel X) d;
     mret (d', ∅)) w.
Proof.
  revert X d w. induction fuel as [|fuel IH]; intros X d w Hsz;
    cbn [get_blamed_names_loop pop_order].
  - assert (X = ∅) as -> by (apply leibniz_equiv, size_empty_iff; lia). done.
  - case_bool_decide as Hz.
    + apply size_empty_iff, leibniz_equiv in Hz as ->. done.
    + pose proof (set_pop_elem pick X Hz) as Hin. cbn [for_each].
      unfold mbind, M_bind.
      destruct (blamed_names_update repo d (set_pop pick X) w) as [[e|d1] w1]; [done|].
      rewrite IH; [reflexivity|].
      rewrite size_difference by set_solver. rewrite size_singleton. lia.
Qed.

(** What [get_blamed_names] returns is an attribution of its input, and
    the input set is left empty. *)
Lemma get_blamed_names_represents pick X w d X' w' :
  get_blamed_names repo pick X w = (Ok (d, X'), w') →
  represents repo X d ∧ X' = ∅.
Proof.
  unfold get_blamed_names. rewrite get_blamed_names_loop_eq by done.
  intros (d1 & w1 & H & [= <- <- _])%bind_inv. split; [|done].
  destruct (pop_order_spec pick (size X) X) as [Hnd Hmem]; [done|].
  eapply (reduce_represents _ ∅) in H; [|done|set_solver|apply represents_empty].
  by replace (list_to_set (pop_order pick (size X) X) ∪ ∅) with X in H by set_solver.
Qed.

(** It returns, in every draw order, on the reducible sets. *)
Lemma get_blamed_names_total pick X w :
  reducible repo X → ∃ d w', get_blamed_names repo pick X w = (Ok (d, ∅), w').
Proof.
  intros Hred. unfold get_blamed_names. rewrite get_blamed_names_loop_eq by done.
  destruct (pop_order_spec pick (size X) X) as [Hnd Hmem]; [done|].
  destruct (reduce_total (pop_order pick (size X) X) ∅ [] w) as (d & w' & H);
    [done | set_solver | apply represents_empty | |].
  - by replace (list_to_set (pop_order pick (size X) X) ∪ ∅) with X by set_solver.
  - exists d, w'. by erewrite bind_ok.
Qed.

End AuthorReducer.

(** *** What the reduction returns *)

Section AuthorReducerClaims.

Variable repo : HgRepo.

Implicit Types (d : dict) (X : gset string) (r rev a : string).

Lemma dict_keys_get d a : a ∈ dict_keys d ↔ is_Some (dict_get d a).
Proof.
  rewrite <- not_eq_None_Some, dict_get_None.
  destruct (decide (a ∈ dict_keys d)); naive_solver.
Qed.

(** C4: on a set whose authors are known and whose multiply blamed
    authors have numeric revisions, [get_blamed_names] returns, in every
    draw order, a dictionary with exactly one entry an author of the set,
    and the entry of an author is a revision of that author that no other
    of them is numerically below.  An author blamed through 50 and 30
    gets 30. *)
Theorem C4_one_entry_per_author_smallest pick X w :
  reducible repo X →
  ∃ d w', get_blamed_names repo pick X w = (Ok (d, ∅), w') ∧
    NoDup (dict_keys d) ∧
    (∀ a, a ∈ dict_keys d ↔ ∃ r, r ∈ X ∧ author_of repo r = Some a) ∧
    (∀ a r, dict_get d a = Some r →
       r ∈ X ∧ author_of repo r = Some a ∧
       ∀ r', r' ∈ X → author_of repo r' = Some a → r' ≠ r → not_after r r') ∧
    (∀ a, X = {["50"; "30"]} → author_of repo "50" = Some a →
          author_of repo "30" = Some a → dict_get d a = Some "30").
Proof.
  intros Hred. destruct (get_blamed_names_total repo pick X w Hred) as (d & w' & Hrun).
  exists d, w'. split; [done|].
  apply get_blamed_names_represents in Hrun as [(Hnd & Hent & Hcov) _].
  split_and!; [done| |done|].
  - intros a. rewrite dict_keys_get. split.
    + intros [r Hr]. exists r. by destruct (Hent a r Hr) as (? & ? & _).
    + intros (r & Hr & Ha). destruct (Hcov r Hr) as (a0 & Ha0 & Hv). congruence.
  - intros a -> H50 H30.
    destruct (Hcov "30") as (a0 & Ha0 & [r Hr]); [set_solver|].
    assert (a0 = a) as -> by congruence. rewrite Hr. f_equal.
    destruct (Hent a r Hr) as (HrX & _ & Hmin).
    apply elem_of_union in HrX as [->%elem_of_singleton | ->%elem_of_singleton]; [|done].
    destruct (Hmin "30") as (n & n' & Hn & Hn' & Hle); [set_solver|done|done|].
    vm_compute in Hn, Hn'. simplify_eq. lia.
Qed.

(** C5 (amended): if the reduction returns in one draw order it returns
    in every other, with the same authors, and for each author revisions
    that are the same string or the same number; the two dictionaries
    hold the same pairs when no two revisions of one author are the same
    number. *)
Theorem C5_order_independent_up_to_number pick1 pick2 X w1 w2 d1 X1 w1' :
  get_blamed_names repo pick1 X w1 = (Ok (d1, X1), w1') →
  ∃ d2 w2', get_blamed_names repo pick2 X w2 = (Ok (d2, ∅), w2') ∧
    (∀ a, match dict_get d1 a, dict_get d2 a with
          | Some r1, Some r2 => same_number r1 r2
          | None, None => True
          | _, _ => False
          end) ∧
    (no_ties repo X → ∀ a, dict_get d1 a = dict_get d2 a).
Proof.
  intros [Hrep1 _]%get_blamed_names_represents.
  destruct (get_blamed_names_total repo pick2 X w2) as (d2 & w2' & Hrun2);
    [by eapply represents_reducible|].
  exists d2, w2'. split; [done|].
  apply get_blamed_names_represents in Hrun2 as [Hrep2 _].
  destruct Hrep1 as (_ & Hent1 & Hcov1), Hrep2 as (_ & Hent2 & Hcov2).
  assert (∀ a, match dict_get d1 a, dict_get d2 a with
               | Some r1, Some r2 => same_number r1 r2
               | None, None => True
               | _, _ => False
               end) as Hsame.
  { intros a.
    destruct (dict_get d1 a) as [r1|] eqn:H1, (dict_get d2 a) as [r2|] eqn:H2; [| | |done].
    - destruct (Hent1 a r1 H1) as (Hr1 & Ha1 & Hmin1).
      destruct (Hent2 a r2 H2) as (Hr2 & Ha2 & Hmin2).
      destruct (decide (r1 = r2)) as [->|Hne]; [by left|]. right.
      destruct (Hmin1 r2) as (n1 & n2 & Hn1 & Hn2 & Hle1); [done..|].
      destruct (Hmin2 r1) as (m2 & m1 & Hm2 & Hm1 & Hle2); [done|done|congruence|].
      exists n1. split; [done|]. rewrite Hn2. f_equal. simplify_eq. lia.
    - destruct (Hent1 a r1 H1) as (Hr1 & Ha1 & _).
      destruct (Hcov2 r1 Hr1) as (a0 & Ha0 & [v Hv]). congruence.
    - destruct (Hent2 a r2 H2) as (Hr2 & Ha2 & _).
      destruct (Hcov1 r2 Hr2) as (a0 & Ha0 & [v Hv]). congruence. }
  split; [done|]. intros Hties a. specialize (Hsame a).
  destruct (dict_get d1 a) as [r1|] eqn:H1, (dict_get d2 a) as [r2|] eqn:H2; try done.
  destruct Hsame as [->|(n & Hn1 & Hn2)]; [done|]. f_equal.
  destruct (Hent1 a r1 H1) as (Hr1 & Ha1 & _).
  destruct (Hent2 a r2 H2) as (Hr2 & Ha2 & _).
  eapply Hties; eauto. congruence.
Qed.

(** C7 (amended): the loop of [get_blamed_names] consumes the set it is
    given, which is empty when it returns; and from any turn on, an entry
    of the dictionary stays as it is or is replaced by a numerically
    smaller revision, never by a larger one. *)
Theorem C7_set_consumed_map_decreasing pick fuel X d w d' X' w' :
  (size X ≤ fuel)%nat →
  get_blamed_names_loop repo pick fuel X d w = (Ok (d', X'), w') →
  X' = ∅ ∧
  ∀ a r, dict_get d a = Some r →
         ∃ r', dict_get d' a = Some r' ∧ (r' = r ∨ below r' r).
Proof.
  intros Hsz Hrun. split.
  { rewrite get_blamed_names_loop_eq in Hrun by done.
    by apply bind_inv in Hrun as (d1 & w1 & _ & [= _ <- _]). }
  revert X d w Hsz Hrun. induction fuel as [|fuel IH]; intros X d w Hsz;
    cbn [get_blamed_names_loop].
  - intros [= <- _ _] a r Hr. eauto.
  - case_bool_decide as Hz; [intros [= <- _ _] a r Hr; by eauto|].
    intros (d1 & w1 & Hstep & Hrest)%bind_inv a r Hr.
    pose proof (set_pop_elem pick X Hz) as Hin.
    assert (size (X ∖ {[set_pop pick X]}) ≤ fuel)%nat as Hsz'
      by (rewrite size_difference by set_solver; rewrite size_singleton; lia).
    specialize (IH _ _ _ Hsz' Hrest). clear Hrest. rename IH into Hrest.
    apply blamed_names_update_inv in Hstep
      as (a0 & Ha0 & [[Hnone ->] | (cur & n & m & Hget & Hn & Hm & [[Hlt ->] | [Hle ->]])]).
    + apply Hrest. rewrite dict_get_set_ne; [done|]. congruence.
    + destruct (decide (a0 = a)) as [->|Hne].
      * destruct (Hrest a (set_pop pick X)) as (r' & Hr' & Hcmp);
          [by rewrite dict_get_set_eq|].
        exists r'. split; [done|]. right. assert (cur = r) as -> by congruence.
        destruct Hcmp as [->|(k' & k & Hk' & Hk & Hlt')].
        -- by exists n, m.
        -- exists k', m. split_and!; try done. simplify_eq. lia.
      * apply Hrest. by rewrite dict_get_set_ne.
    + by apply Hrest.
Qed.

End AuthorReducerClaims.

(** ** The claims on the demonstration repository *)

Example demo_blamed :
  (main_blamed_revs Demo.repo ["10"; "12"] false Demo.w0).1 = Ok Demo.blamed.
Proof. vm_compute. reflexivity. Qed.

Lemma C1_blame_intersection_witness :
  (FileDiff_get_blamed_revs Demo.repo
     {| fd_revision := "12"; filename := "foo.rs";
        diffs := [ {| start := 2; count := 2 |} ] |} [] Demo.w0).1
  = Ok ({[" 8"; "10"]} : gset string).
Proof.
  apply (C1_blame_intersection Demo.repo "12" "foo.rs" Demo.w0 "11"
           (Demo.unlines [" 3: let a = 0;"; " 5: let b = 0;"; " 8: let c = 0;";
                          "10: let d = 0;"; " 3: let e = 0;"])
           " 3" " 5" " 8" "10" " 3"); reflexivity.
Defined.

(** C6 fails on the code.  A file marker with no hunk under it parses to a
    [FileDiff] without ranges, and [FileDiff.get_blamed_revs] then raises
    [StopIteration] from [next(ldi)], after it has fetched parent and
    blame; whatever the repository answers, it returns no set. *)
Theorem C6_no_ranges_raises :
  RevisionDiff_init "12" ["diff --git a/foo.rs b/foo.rs";
                          "Binary file foo.rs has changed"]
    = Ok {| revision := "12"; files := [FileDiff_init "12" "foo.rs"] |}
  ∧ FileDiff_get_blamed_revs Demo.repo (FileDiff_init "12" "foo.rs") [] Demo.w0
    = (Raise StopIteration,
       {| trace := [parent_cmd "12"; blame_cmd "foo.rs" "11"]; stdout := [] |})
  ∧ ∀ repo revision fname exclude w,
      ∃ e, (FileDiff_get_blamed_revs repo (FileDiff_init revision fname) exclude w).1
           = Raise e.
Proof.
  split_and!; [reflexivity | reflexivity |].
  apply FileDiff_get_blamed_revs_no_ranges.
Qed.

Lemma reducible_of_numbers repo (X : gset string) :
  (∀ r, r ∈ X → is_Some (author_of repo r) ∧ is_Some (Py.int r)) →
  reducible repo X.
Proof.
  intros H. split.
  - intros r Hr. by destruct (H r Hr).
  - intros r r' Hr Hr' _ _. split; [by destruct (H r Hr) | by destruct (H r' Hr')].
Qed.

Lemma C4_one_entry_per_author_smallest_witness :
  ∃ d w', get_blamed_names Demo.repo Demo.pick_first {["50"; "30"]} Demo.w0
          = (Ok (d, ∅), w') ∧ dict_get d "alice" = Some "30".
Proof.
  destruct (C4_one_entry_per_author_smallest Demo.repo Demo.pick_first
              {["50"; "30"]} Demo.w0) as (d & w' & Hrun & _ & _ & _ & H30).
  - apply reducible_of_numbers.
    intros r [->%elem_of_singleton | ->%elem_of_singleton]%elem_of_union;
      split; by eexists.
  - exists d, w'. split; [exact Hrun|]. by apply H30.
Defined.

(** C5 as stated fails.  [hg annotate] pads revision numbers to the width
    of the file's largest, so revision 8 is blamed as ["8"] through
    [foo.py] and as [" 8"] through [foo.rs]; which of the two strings
    alice's entry holds is decided by the draw order. *)
Lemma C5_order_matters : ¬ order_independent Demo.repo Demo.blamed.
Proof.
  intros H.
  pose proof (H Demo.pick_first Demo.pick_last Demo.w0 _ _ _ _ _ _
                ltac:(vm_compute; reflexivity) ltac:(vm_compute; reflexivity)
                "alice") as Ha.
  vm_compute in Ha. discriminate Ha.
Qed.

Lemma C5_order_independent_up_to_number_witness :
  ∃ d2 w2', get_blamed_names Demo.repo Demo.pick_last Demo.blamed Demo.w0
            = (Ok (d2, ∅), w2') ∧
            ∃ r, dict_get d2 "alice" = Some r ∧ same_number "8" r.
Proof.
  edestruct (C5_order_independent_up_to_number Demo.repo Demo.pick_first
               Demo.pick_last Demo.blamed Demo.w0 Demo.w0)
    as (d2 & w2' & Hrun & Hsame & _).
  - vm_compute. reflexivity.
  - exists d2, w2'. split; [exact Hrun|]. specialize (Hsame "alice").
    change (dict_get _ "alice") with (Some "8") in Hsame at 1.
    destruct (dict_get d2 "alice") as [r|]; [|destruct Hsame].
    exists r. split; [reflexivity | exact Hsame].
Defined.

(** C7 as stated fails: [get_blamed_names] pops its input set empty. *)
Lemma C7_input_set_consumed : ¬ input_set_kept Demo.repo Demo.pick_first.
Proof.
  intros H.
  assert (get_blamed_names Demo.repo Demo.pick_first {["5"]} Demo.w0
          = (Ok ([("bob", "5")], ∅), ran (author_cmd "5") Demo.w0)) as Hrun
    by (vm_compute; reflexivity).
  apply H in Hrun. apply (f_equal size) in Hrun.
  vm_compute in Hrun. discriminate Hrun.
Qed.

Lemma C7_set_consumed_map_decreasing_witness :
  ∃ r', dict_get [("bob", "5")] "bob" = Some r' ∧ (r' = " 7" ∨ below r' " 7").
Proof.
  destruct (C7_set_consumed_map_decreasing Demo.repo Demo.pick_first 1 {["5"]}
              [("bob", " 7")] Demo.w0 [("bob", "5")] ∅
              {| trace := [author_cmd "5"]; stdout := [] |}) as [_ H].
  - vm_compute. lia.
  - vm_compute. reflexivity.
  - apply (H "bob" " 7"). reflexivity.
Defined.

(** ** BlameIntersector: the scan against the ranges *)

Section BlameScan.

Variable repo : HgRepo.

Implicit Types (exclude : list string) (acc : gset string) (ld : DiffLines)
  (ldi : list DiffLines) (i : Z).

Lemma ranges_ordered_later ld ldi d :
  ranges_ordered ld ldi → d ∈ ldi →
  start ld + count ld <= start d ∧ start ld + count ld < start d + count d.
Proof.
  revert ld. induction ldi as [|ld' ldi IH]; intros ld Hord Hd.
  - by apply elem_of_nil in Hd.
  - destruct Hord as (H1 & H2 & Hord).
    apply elem_of_cons in Hd as [->|Hd]; [done|].
    destruct (IH ld' Hord Hd). lia.
Qed.

(** A line the cursor has not reached the end of is in a range exactly
    when it is at or after the start of the current one. *)
Lemma in_ranges_current ld ldi i :
  ranges_ordered ld ldi → i < start ld + count ld →
  in_ranges (ld :: ldi) i ↔ start ld <= i.
Proof.
  intros Hord Hi. split.
  - intros (d & [->|Hd]%elem_of_cons & Hin); [lia|].
    destruct (ranges_ordered_later _ _ _ Hord Hd). lia.
  - intros Hs. exists ld. split; [by left | lia].
Qed.

(** Past the end of the current range only the ranges after it count. *)
Lemma in_ranges_past ld ldi j :
  start ld + count ld <= j → in_ranges (ld :: ldi) j ↔ in_ranges ldi j.
Proof.
  intros Hj. split.
  - intros (d & [->|Hd]%elem_of_cons & Hin); [lia|]. by exists d.
  - intros (d & Hd & Hin). exists d. split; [by right | done].
Qed.

Lemma in_ranges_nil j : ¬ in_ranges [] j.
Proof. intros (d & Hd & _). by apply elem_of_nil in Hd. Qed.

Lemma scanned_cons exclude line blame_lines i ds r :
  scanned exclude (line :: blame_lines) i ds r ↔
  ((r ∉ exclude) ∧ Py.before ":" line = r ∧ in_ranges ds i) ∨
  scanned exclude blame_lines (i + 1) ds r.
Proof.
  unfold scanned. split.
  - intros (Hex & k & l & Hk & Hr & Hin). destruct k as [|k]; cbn in Hk.
    + left. injection Hk as ->. by rewrite Z.add_0_r in Hin.
    + right. split; [done|]. exists k, l. split_and!; [done..|].
      by replace (i + 1 + Z.of_nat k) with (i + Z.of_nat (S k)) by lia.
  - intros [(Hex & Hr & Hin) | (Hex & k & l & Hk & Hr & Hin)]; (split; [done|]).
    + exists 0%nat, line. split_and!; [done..|]. by rewrite Z.add_0_r.
    + exists (S k), l. split_and!; [done..|].
      by replace (i + Z.of_nat (S k)) with (i + 1 + Z.of_nat k) by lia.
Qed.

(** What one line adds to the set. *)
Lemma recorded_iff exclude acc line (b : Prop) `{!Decision b} r :
  r ∈ (if bool_decide b
       then if bool_decide (Py.before ":" line ∉ exclude)
            then acc ∪ {[Py.before ":" line]} else acc
       else acc) ↔
  r ∈ acc ∨ ((r ∉ exclude) ∧ Py.before ":" line = r ∧ b).
Proof.
  case_bool_decide as Hb; [case_bool_decide as Hex|].
  - rewrite elem_of_union, elem_of_singleton. split.
    + intros [?| ->]; [by left | by right].
    + intros [?|(_ & <- & _)]; [by left | by right].
  - split; [by left|]. intros [?|(Hr & <- & _)]; done.
  - split; [by left|]. intros [?|(_ & _ & ?)]; done.
Qed.

(** On ordered ranges the scan adds the revisions, not excluded, of the
    lines whose index lies in a range. *)
Lemma blame_scan_exact exclude blame_lines i ld ldi acc r :
  ranges_ordered ld ldi → i <= start ld + count ld →
  r ∈ blame_scan exclude blame_lines i ld ldi acc ↔
  r ∈ acc ∨ scanned exclude blame_lines i (ld :: ldi) r.
Proof.
  revert i ld ldi acc.
  induction blame_lines as [|line blame_lines IH]; intros i ld ldi acc Hord Hi;
    cbn [blame_scan].
  - split; [by left|]. intros [?|(_ & k & l & Hk & _)]; [done|].
    by rewrite lookup_nil in Hk.
  - rewrite scanned_cons. case_bool_decide as Hend; cbn [head tail].
    + assert (i = start ld + count ld) as Hi' by lia.
      destruct ldi as [|ld' ldi]; cbn [head tail].
      * split; [by left|]. intros [?|[(_ & _ & Hin)|(_ & k & l & _ & _ & Hin)]]; [done|..].
        -- apply in_ranges_past in Hin; [|lia]. by apply in_ranges_nil in Hin.
        -- apply in_ranges_past in Hin; [|lia]. by apply in_ranges_nil in Hin.
      * destruct Hord as (H1 & H2 & Hord).
        rewrite IH by (done || lia). rewrite recorded_iff.
        assert (∀ j, i <= j → in_ranges (ld :: ld' :: ldi) j ↔ in_ranges (ld' :: ldi) j)
          as Hpast by (intros j Hj; apply in_ranges_past; lia).
        rewrite (Hpast i) by lia.
        rewrite (in_ranges_current ld' ldi i) by (done || lia).
        assert (scanned exclude blame_lines (i + 1) (ld :: ld' :: ldi) r ↔
                scanned exclude blame_lines (i + 1) (ld' :: ldi) r) as ->.
        { unfold scanned. split; intros (Hex & k & l & Hk & Hr & Hin);
            (split; [done|]); exists k, l; (split_and!; [done..|]);
            apply Hpast; (lia || done). }
        rewrite Z.ge_le_iff. tauto.
    + rewrite IH by (done || lia). rewrite recorded_iff.
      rewrite (in_ranges_current ld ldi i) by (done || lia).
      rewrite Z.ge_le_iff. tauto.
Qed.

End BlameScan.

Section BlameIntersectorMore.

Variable repo : HgRepo.

(** The scan only adds revisions the blame names, for lines at or after
    the start of some range. *)
Lemma blame_scan_sound exclude blame_lines i ld ldi acc r :
  r ∈ blame_scan exclude blame_lines i ld ldi acc →
  r ∈ acc ∨
  ((r ∉ exclude) ∧
   ∃ (k : nat) line d, blame_lines !! k = Some line ∧ Py.before ":" line = r ∧
                       d ∈ ld :: ldi ∧ start d <= i + Z.of_nat k).
Proof.
  revert i ld ldi acc.
  induction blame_lines as [|line blame_lines IH]; intros i ld ldi acc;
    cbn [blame_scan]; [by left|].
  assert (∀ ld0 ldi0 acc0,
            (∀ d, d ∈ ld0 :: ldi0 → d ∈ ld :: ldi) →
            (r ∈ acc0 → r ∈ acc ∨ ((r ∉ exclude) ∧ Py.before ":" line = r ∧ start ld0 <= i)) →
            r ∈ blame_scan exclude blame_lines (i + 1) ld0 ldi0 acc0 →
            r ∈ acc ∨
            ((r ∉ exclude) ∧
             ∃ (k : nat) line0 d, (line :: blame_lines) !! k = Some line0 ∧
                                  Py.before ":" line0 = r ∧
                                  d ∈ ld :: ldi ∧ start d <= i + Z.of_nat k)) as Hstep.
  { intros ld0 ldi0 acc0 Hsub Hacc [Hr|(Hex & k & l & d & Hk & Hl & Hd & Hs)]%IH.
    - destruct (Hacc Hr) as [?|(Hex & Hl & Hs)]; [by left|]. right. split; [done|].
      exists 0%nat, line, ld0. split_and!; [done|done| |lia]. apply Hsub. by left.
    - right. split; [done|]. exists (S k), l, d. split_and!; [done|done|by apply Hsub|lia]. }
  case_bool_decide as Hend.
  - destruct ldi as [|ld' ldi]; cbn [head tail]; [by left|].
    apply Hstep; [intros d Hd; by right|].
    rewrite recorded_iff, Z.ge_le_iff. tauto.
  - apply Hstep; [done|].
    rewrite recorded_iff, Z.ge_le_iff. tauto.
Qed.

Lemma blame_listing_lookup blame_raw (k : nat) r :
  blame_listing blame_raw !! k = Some r ↔
  ∃ line, Py.splitlines blame_raw !! k = Some line ∧ Py.before ":" line = r.
Proof.
  unfold blame_listing. rewrite list_lookup_fmap.
  destruct (Py.splitlines blame_raw !! k) as [l|]; cbn; naive_solver.
Qed.

(** X1: for ranges in increasing order, [FileDiff.get_blamed_revs] returns
    exactly the revisions, not excluded, that the blame of the parent
    names for the lines whose index lies in one of the ranges. *)
Theorem X1_blamed_revs_exact fd exclude w parent blame_raw ld ldi :
  hg_out repo ["log"; "-T"; "{p1rev}"; "-r"; fd_revision fd] = Some parent →
  hg_out repo ["annotate"; "-r"; parent; filename fd] = Some blame_raw →
  diffs fd = ld :: ldi →
  ranges_ordered ld ldi →
  0 <= start ld + count ld →
  ∃ s, (FileDiff_get_blamed_revs repo fd exclude w).1 = Ok s ∧
       ∀ r, r ∈ s ↔
            (r ∉ exclude) ∧
            ∃ k : nat, blame_listing blame_raw !! k = Some r ∧
                       in_ranges (diffs fd) (Z.of_nat k).
Proof.
  intros Hp Hb Hd Hord H0.
  erewrite FileDiff_get_blamed_revs_ok by eassumption. rewrite Hd. cbn [fst].
  eexists. split; [reflexivity|]. intros r.
  rewrite blame_scan_exact by done. unfold scanned. split.
  - intros [Hr|(Hex & k & l & Hk & Hl & Hin)]; [by apply not_elem_of_empty in Hr|].
    split; [done|]. exists k. split; [|by rewrite Z.add_0_l in Hin].
    apply blame_listing_lookup. by exists l.
  - intros (Hex & k & (l & Hk & Hl)%blame_listing_lookup & Hin). right.
    split; [done|]. exists k, l. split_and!; [done..|]. by rewrite Z.add_0_l.
Qed.

(** X2: whatever the ranges, every revision [FileDiff.get_blamed_revs]
    returns is outside the exclusion list and is named by the blame of the
    parent for a line at or after the start of one of the ranges. *)
Theorem X2_blamed_revs_sound fd exclude w s w' r :
  FileDiff_get_blamed_revs repo fd exclude w = (Ok s, w') →
  r ∈ s →
  (r ∉ exclude) ∧
  ∃ parent blame_raw (k : nat) d,
    hg_out repo ["log"; "-T"; "{p1rev}"; "-r"; fd_revision fd] = Some parent ∧
    hg_out repo ["annotate"; "-r"; parent; filename fd] = Some blame_raw ∧
    blame_listing blame_raw !! k = Some r ∧
    d ∈ diffs fd ∧ start d <= Z.of_nat k.
Proof.
  unfold FileDiff_get_blamed_revs, HgPApi_parent, HgPApi_blame.
  intros (p & w1 & [Hp _]%run_command_inv &
          (b & w2 & [Hb _]%run_command_inv & H)%bind_inv)%bind_inv Hr.
  destruct (diffs fd) as [|ld ldi] eqn:Hd; [done|]. injection H as <- _.
  apply blame_scan_sound in Hr
    as [Hr|(Hex & k & l & d & Hk & Hl & Hin & Hs)]; [by apply not_elem_of_empty in Hr|].
  split; [done|]. exists p, b, k, d. split_and!; [done|done| |done|lia].
  apply blame_listing_lookup. by exists l.
Qed.

End BlameIntersectorMore.

Lemma X1_blamed_revs_exact_witness :
  ∃ s, (FileDiff_get_blamed_revs Demo.repo
          {| fd_revision := "12"; filename := "foo.rs";
             diffs := [ {| start := 0; count := 1 |}; {| start := 2; count := 2 |} ] |}
          ["10"; "12"] Demo.w0).1 = Ok s ∧
       ∀ r, r ∈ s ↔
            (r ∉ ["10"; "12"]) ∧
            ∃ k : nat,
              blame_listing
                (Demo.unlines [" 3: let a = 0;"; " 5: let b = 0;"; " 8: let c = 0;";
                               "10: let d = 0;"; " 3: let e = 0;"]) !! k = Some r ∧
              in_ranges [ {| start := 0; count := 1 |}; {| start := 2; count := 2 |} ]
                (Z.of_nat k).
Proof.
  apply (X1_blamed_revs_exact Demo.repo
           {| fd_revision := "12"; filename := "foo.rs";
              diffs := [ {| start := 0; count := 1 |}; {| start := 2; count := 2 |} ] |}
           ["10"; "12"] Demo.w0 "11" _ {| start := 0; count := 1 |}
           [ {| start := 2; count := 2 |} ]).
  - reflexivity.
  - reflexivity.
  - reflexivity.
  - cbn. lia.
  - cbn. lia.
Defined.

Lemma X2_blamed_revs_sound_witness :
  (" 8" ∉ ["10"; "12"]) ∧
  ∃ parent blame_raw (k : nat) d,
    hg_out Demo.repo ["log"; "-T"; "{p1rev}"; "-r"; "12"] = Some parent ∧
    hg_out Demo.repo ["annotate"; "-r"; parent; "foo.rs"] = Some blame_raw ∧
    blame_listing blame_raw !! k = Some " 8" ∧
    d ∈ [ {| start := 2; count := 2 |} ] ∧ start d <= Z.of_nat k.
Proof.
  apply (X2_blamed_revs_sound Demo.repo
           {| fd_revision := "12"; filename := "foo.rs";
              diffs := [ {| start := 2; count := 2 |} ] |}
           ["10"; "12"] Demo.w0 {[" 8"]}
           (ran (blame_cmd "foo.rs" "11") (ran (parent_cmd "12") Demo.w0))).
  - vm_compute. reflexivity.
  - by apply elem_of_singleton.
Defined.

(** ** DiffHunkParser: every line *)

Section ParserMore.

Implicit Types (revision line : string) (files : list FileDiff).

Lemma app_assoc_s (a b c : string) : (a ++ b) ++ c = a ++ b ++ c.
Proof.
  induction a as [|x a IH]; [done|]. by rewrite !app_cons, IH.
Qed.

Lemma len_app (a b : string) : Py.len (a ++ b) = Py.len a + Py.len b.
Proof. unfold Py.len. rewrite length_app. lia. Qed.

Lemma take_app_length (p x : string) : Py.take (String.length p) (p ++ x) = p.
Proof.
  induction p as [|c p IH]; [by destruct x|].
  rewrite app_cons. cbn [String.length Py.take]. by rewrite IH.
Qed.

Lemma has_char_app c (a b : string) :
  has_char c (a ++ b) = has_char c a || has_char c b.
Proof.
  induction a as [|x a IH]; [done|].
  rewrite app_cons. cbn [has_char]. by rewrite IH, orb_assoc.
Qed.

(** The first occurrence of a character is after a text without it. *)
Lemma index_of_char c (p t : string) :
  has_char c p = false →
  Py.index_of (String c "") (p ++ String c t) = Some (Py.len p).
Proof.
  induction p as [|x p IH]; intros Hp.
  - rewrite app_nil. cbn [Py.index_of Py.startswith].
    by rewrite Ascii.eqb_refl.
  - cbn [has_char] in Hp. apply orb_false_iff in Hp as [Hx Hp].
    rewrite app_cons. cbn [Py.index_of Py.startswith].
    rewrite Ascii.eqb_sym, Hx. cbn [andb]. rewrite IH by done.
    rewrite len_cons. cbn. f_equal. lia.
Qed.

(** [find] of a character from inside a known beginning. *)
Lemma find_char (b p t : string) c :
  has_char c p = false →
  Py.find (b ++ p ++ String c t) (String c "") (Py.len b) = Py.len b + Py.len p.
Proof.
  intros Hp. pose proof (len_nonneg b). pose proof (len_nonneg p).
  pose proof (len_nonneg (String c t)).
  rewrite find_inside by (rewrite !len_app; lia).
  replace (Z.to_nat (Py.len b)) with (String.length b) by (unfold Py.len; lia).
  rewrite drop_app_length. by rewrite index_of_char.
Qed.

Lemma slice_middle (b p t : string) :
  Py.slice (b ++ p ++ t) (Py.len b) (Py.len b + Py.len p) = p.
Proof.
  pose proof (len_nonneg b). pose proof (len_nonneg p). pose proof (len_nonneg t).
  rewrite slice_inside by (rewrite !len_app; lia).
  replace (Z.to_nat (Py.len b)) with (String.length b) by (unfold Py.len; lia).
  rewrite drop_app_length.
  replace (Z.to_nat (Py.len b + Py.len p - Py.len b)) with (String.length p)
    by (unfold Py.len; lia).
  apply take_app_length.
Qed.

(** X3: a hunk header [@@ -a,c rest], where [a] holds no comma and
    neither [a] nor [c] a space, is read as the two numbers [int(a)] and
    [int(c)]: [ValueError] when one of them is no number, otherwise the
    range [{start: a-1, count: c}] goes to the last file, [IndexError] when
    there is none. *)
Theorem X3_hunk_header_parse revision files (a c rest : string) :
  has_char "," a = false → has_char " " a = false → has_char " " c = false →
  parse_line revision files ("@@ -" ++ a ++ "," ++ c ++ " " ++ rest) =
    (old_line_start ← py_int a;
     diff_size ← py_int c;
     append_to_last files (DiffLines_init old_line_start diff_size)).
Proof.
  intros Hca Hsa Hsc.
  set (line := "@@ -" ++ a ++ "," ++ c ++ " " ++ rest).
  assert (Py.find line "," 3 = 4 + Py.len a) as Hcomma.
  { change line with ("@@ " ++ ("-" ++ a) ++ String "," (c ++ " " ++ rest)).
    change 3 with (Py.len "@@ "). rewrite find_char.
    - rewrite len_app. change (Py.len "-") with 1. change (Py.len "@@ ") with 3. lia.
    - rewrite has_char_app. by rewrite Hca. }
  assert (Py.find line " " 3 = 5 + Py.len a + Py.len c) as Hspace.
  { replace line with ("@@ " ++ ("-" ++ a ++ "," ++ c) ++ String " " rest).
    - change 3 with (Py.len "@@ "). rewrite find_char.
      + rewrite !len_app. change (Py.len "-") with 1. change (Py.len ",") with 1.
        change (Py.len "@@ ") with 3. lia.
      + rewrite !has_char_app. by rewrite Hsa, Hsc.
    - unfold line. rewrite !app_assoc_s. reflexivity. }
  assert (Py.slice line 4 (4 + Py.len a) = a) as Ha.
  { change line with ("@@ -" ++ a ++ ("," ++ c ++ " " ++ rest)).
    change 4 with (Py.len "@@ -"). apply slice_middle. }
  assert (Py.slice line (4 + Py.len a + 1) (5 + Py.len a + Py.len c) = c) as Hc.
  { replace line with (("@@ -" ++ a ++ ",") ++ c ++ (" " ++ rest))
      by (unfold line; rewrite !app_assoc_s; reflexivity).
    replace (4 + Py.len a + 1) with (Py.len ("@@ -" ++ a ++ ","))
      by (rewrite !len_app; change (Py.len "@@ -") with 4; change (Py.len ",") with 1; lia).
    replace (5 + Py.len a + Py.len c) with (Py.len ("@@ -" ++ a ++ ",") + Py.len c)
      by (rewrite !len_app; change (Py.len "@@ -") with 4; change (Py.len ",") with 1; lia).
    apply slice_middle. }
  change line with (String "@" ("@ -" ++ a ++ "," ++ c ++ " " ++ rest)) at 1.
  unfold parse_line. rewrite hunk_line_not_marker.
  change (String "@" ("@ -" ++ a ++ "," ++ c ++ " " ++ rest)) with line.
  rewrite Hcomma, Hspace, Ha, Hc. reflexivity.
Qed.

(** A line that is empty, or starts with neither [diff ] nor [@], changes
    nothing. *)
Lemma parse_line_irrelevant revision files line :
  relevant line = false → parse_line revision files line = Ok files.
Proof.
  unfold relevant, is_marker, is_hunk. intros [Hm Hh]%orb_false_iff.
  destruct line as [|c0 r]; [done|]. unfold parse_line.
  rewrite bool_decide_eq_false_2 by (rewrite find_0_prefix; congruence).
  cbn [mbind result_bind Ok].
  cbn [Py.startswith] in Hh. rewrite andb_true_r in Hh.
  by rewrite Ascii.eqb_sym, Hh.
Qed.

Lemma parse_lines_filter revision files lines :
  parse_lines revision files lines =
  parse_lines revision files (List.filter relevant lines).
Proof.
  revert files. induction lines as [|line lines IH]; intros files; [done|].
  cbn [parse_lines List.filter]. destruct (relevant line) eqn:Hrel.
  - cbn [parse_lines]. destruct (parse_line revision files line) as [e|files']; [done|].
    cbn [mbind result_bind]. apply IH.
  - rewrite parse_line_irrelevant by done. cbn [mbind result_bind Ok]. apply IH.
Qed.

(** X4: the parser reads only the lines that start with [diff ] or [@]:
    dropping every other line from a diff changes neither the result nor
    the exception. *)
Theorem X4_other_lines_ignored revision lines :
  RevisionDiff_init revision lines =
  RevisionDiff_init revision (List.filter relevant lines).
Proof. unfold RevisionDiff_init. by rewrite parse_lines_filter. Qed.

(** The text [int] reads begins with the first character of a string that
    begins with no blank. *)
Lemma int_rstrip_cons c s :
  Py.int_space c = false → ∃ s', Py.int_rstrip (String c s) = String c s'.
Proof.
  intros Hc. cbn [Py.int_rstrip]. destruct (Py.int_rstrip s); [|by eexists].
  rewrite Hc. by eexists.
Qed.

Lemma int_at s : Py.int (String "@" s) = None.
Proof.
  unfold Py.int. cbn [Py.int_lstrip].
  change (Py.int_space "@") with false. cbv match.
  destruct (int_rstrip_cons "@" s) as [s' ->]; [done|].
  unfold Py.int_literal. by destruct (_ <? _).
Qed.

Lemma take_at n s : Py.int (Py.take n (String "@" s)) = None.
Proof. destruct n; [reflexivity|]. cbn [Py.take]. apply int_at. Qed.

Lemma slice_from_0 s b :
  Py.slice s 0 b = Py.take (Z.to_nat (Py.clip (Py.len s) b)) s.
Proof.
  unfold Py.slice. pose proof (len_nonneg s).
  rewrite (clip_inside _ 0) by lia. by rewrite Z.sub_0_r.
Qed.

Lemma slice_backwards s a b : 0 <= b → b <= a → Py.slice s a b = "".
Proof.
  intros Hb Hab. unfold Py.slice, Py.clip.
  destruct (Z.ltb_spec a 0), (Z.ltb_spec b 0); try lia.
  replace (Z.to_nat _) with 0%nat by lia. reflexivity.
Qed.

(** X5: a hunk header whose old-side range has no count — no comma from
    index 3 on, or none before the first space — never adds a range and is
    not read as a count of 1: the parser raises [ValueError]. *)
Theorem X5_hunk_header_without_count revision files line :
  Py.startswith line "@" = true →
  Py.find line "," 3 = -1 ∨ 0 <= Py.find line " " 3 <= Py.find line "," 3 →
  ∃ literal, parse_line revision files line = Raise (ValueError literal).
Proof.
  intros [r ->]%startswith_at Hcase. unfold parse_line.
  rewrite hunk_line_not_marker. cbn [mbind result_bind Ok].
  change (Ascii.eqb "@" "@") with true. cbv match.
  set (line := String "@" r) in *.
  assert (Py.int (Py.slice line (Py.find line "," 3 + 1) (Py.find line " " 3)) = None)
    as Hnone.
  { destruct Hcase as [-> | Hle].
    - change (-1 + 1) with 0. rewrite slice_from_0. apply take_at.
    - rewrite slice_backwards by lia. reflexivity. }
  unfold py_int. rewrite Hnone.
  destruct (Py.int (Py.slice line 4 (Py.find line "," 3))) as [n|];
    eexists; reflexivity.
Qed.

Lemma append_to_last_keeps files d files' :
  append_to_last files d = Ok files' →
  filename <$> files' = filename <$> files ∧
  fd_revision <$> files' = fd_revision <$> files ∧
  total_ranges files' = S (total_ranges files).
Proof.
  destruct files as [|f0 fs0] using rev_ind; [done|].
  rewrite append_to_last_snoc. intros [= <-]. unfold total_ranges.
  rewrite !fmap_app, !sum_list_with_app. cbn. rewrite List.length_app. cbn.
  split_and!; [done..|lia].
Qed.

Lemma last_token_name line tok :
  last_token line = Ok tok → marker_name line = Py.slice_from tok 2.
Proof.
  unfold last_token, marker_name. destruct (last (Py.split line)); [|done].
  by intros [= ->].
Qed.

(** What one line does to the list of files. *)
Lemma parse_line_keeps revision files line files' :
  parse_line revision files line = Ok files' →
  filename <$> files' =
    ((filename <$> files) ++ (if is_marker line then [marker_name line] else []))%list ∧
  fd_revision <$> files' =
    ((fd_revision <$> files) ++ (if is_marker line then [revision] else []))%list ∧
  total_ranges files' =
    (total_ranges files + (if is_hunk line then 1 else 0))%nat.
Proof.
  destruct line as [|c0 r].
  { intros [= <-]. cbn. by rewrite !app_nil_r, Nat.add_0_r. }
  unfold parse_line, is_marker, is_hunk.
  set (line := String c0 r).
  assert (bool_decide (Py.find line "diff " 0 = 0) = Py.startswith line "diff ") as ->.
  { destruct (Py.startswith line "diff ") eqn:Hm.
    - by apply bool_decide_eq_true, find_0_prefix.
    - apply bool_decide_eq_false. rewrite find_0_prefix. congruence. }
  assert (Py.startswith line "@" = Ascii.eqb c0 "@") as ->.
  { unfold line. cbn [Py.startswith]. by rewrite andb_true_r, Ascii.eqb_sym. }
  destruct (Py.startswith line "diff ") eqn:Hm.
  - assert (Ascii.eqb c0 "@" = false) as ->.
    { unfold line in Hm. cbn [Py.startswith] in Hm.
      apply andb_true_iff in Hm as [<-%Ascii.eqb_eq _]. reflexivity. }
    destruct (last_token line) as [e|tok] eqn:Htok; [done|].
    cbn [mbind result_bind Ok]. intros [= <-].
    rewrite (last_token_name _ _ Htok). unfold total_ranges.
    rewrite !fmap_app, sum_list_with_app. cbn. split_and!; [done..|lia].
  - cbn [mbind result_bind Ok]. destruct (Ascii.eqb c0 "@").
    + destruct (py_int (Py.slice line 4 _)) as [e1|n]; cbn [mbind result_bind];
        [intros H; by inversion H|].
      destruct (py_int _) as [e2|m]; cbn [mbind result_bind];
        [intros H; by inversion H|].
      intros (Hn & Hr & Ht)%append_to_last_keeps.
      rewrite Hn, Hr, Ht, !app_nil_r. split_and!; [done..|lia].
    + intros [= <-]. by rewrite !app_nil_r, Nat.add_0_r.
Qed.

Lemma parse_lines_keeps revision files lines files' :
  parse_lines revision files lines = Ok files' →
  filename <$> files' =
    ((filename <$> files) ++ (marker_name <$> List.filter is_marker lines))%list ∧
  fd_revision <$> files' =
    ((fd_revision <$> files)
       ++ replicate (length (List.filter is_marker lines)) revision)%list ∧
  total_ranges files' = (total_ranges files + length (List.filter is_hunk lines))%nat.
Proof.
  revert files. induction lines as [|line lines IH]; intros files; cbn [parse_lines].
  - intros [= <-]. cbn. by rewrite !app_nil_r, Nat.add_0_r.
  - destruct (parse_line revision files line) as [e|files1] eqn:H1; [done|].
    cbn [mbind result_bind]. intros (Hn & Hr & Ht)%IH.
    apply parse_line_keeps in H1 as (Hn1 & Hr1 & Ht1).
    rewrite Hn, Hr, Ht, Hn1, Hr1, Ht1. cbn [List.filter].
    destruct (is_marker line), (is_hunk line); cbn;
      rewrite <- ?app_assoc, ?app_nil_r; split_and!; (done || lia).
Qed.

(** X6: when the parser returns, its [RevisionDiff] holds one [FileDiff]
    for each line that starts with [diff ], in the order of these lines,
    named by the last token of its line less two characters and carrying
    the revision parsed; and the files hold together one range for each
    line that starts with [@]. *)
Theorem X6_one_file_per_marker (rv : string) lines rd :
  RevisionDiff_init rv lines = Ok rd →
  revision rd = rv ∧
  filename <$> files rd = marker_name <$> List.filter is_marker lines ∧
  Forall (λ fd, fd_revision fd = rv) (files rd) ∧
  total_ranges (files rd) = length (List.filter is_hunk lines).
Proof.
  unfold RevisionDiff_init.
  destruct (parse_lines rv [] lines) as [e|fs] eqn:H; [intros H'; by inversion H'|].
  cbn [mbind result_bind]. intros [= <-]. cbn [revision files].
  apply parse_lines_keeps in H as (Hn & Hr & Ht). cbn in Hn, Hr, Ht.
  split_and!; [done|done| |done].
  apply Forall_forall. intros fd Hfd.
  assert (fd_revision fd ∈ fd_revision <$> fs) as Hin by (by apply list_elem_of_fmap_2).
  rewrite Hr in Hin. by apply elem_of_replicate in Hin as [-> _].
Qed.

End ParserMore.

Lemma X3_hunk_header_parse_witness :
  parse_line "7" [FileDiff_init "7" "foo.rs"] "@@ -10,5 +10,6 @@" =
  Ok [ {| fd_revision := "7"; filename := "foo.rs";
          diffs := [ {| start := 9; count := 5 |} ] |} ].
Proof.
  apply (X3_hunk_header_parse "7" [FileDiff_init "7" "foo.rs"] "10" "5" "+10,6 @@");
    reflexivity.
Defined.

Lemma X5_hunk_header_without_count_witness :
  ∃ literal, parse_line "7" [FileDiff_init "7" "foo.rs"] "@@ -5 +5,2 @@"
             = Raise (ValueError literal).
Proof.
  apply (X5_hunk_header_without_count "7" [FileDiff_init "7" "foo.rs"] "@@ -5 +5,2 @@").
  - reflexivity.
  - right. vm_compute. split; discriminate.
Defined.

Lemma X6_one_file_per_marker_witness :
  ∃ rd, RevisionDiff_init "12" (Py.splitlines Demo.diff_12) = Ok rd ∧
        filename <$> files rd = ["foo.rs"; "foo.py"] ∧
        total_ranges (files rd) = 2%nat.
Proof.
  eexists. split; [vm_compute; reflexivity|].
  destruct (X6_one_file_per_marker "12" (Py.splitlines Demo.diff_12) _
              ltac:(vm_compute; reflexivity)) as (_ & Hn & _ & Ht).
  split; [exact Hn | exact Ht].
Defined.

(** ** RevisionAttributor: the union over files and revisions *)

Section Aggregation.

Variable repo : HgRepo.

Implicit Types (exclude : list string) (s acc : gset string).

Lemma indep_ret {A} (a : A) : indep (mret a).
Proof. done. Qed.

Lemma indep_bind {A B} (m : M A) (f : A → M B) :
  indep m → (∀ a, indep (f a)) → indep (m ≫= f).
Proof.
  intros Hm Hf w w0. unfold mbind, M_bind. specialize (Hm w w0).
  destruct (m w) as [[e|a] w1], (m w0) as [[e0|a0] w2]; cbn in Hm; simplify_eq; [done|].
  apply Hf.
Qed.

Lemma indep_check_output c : indep (check_output repo c).
Proof. intros w w0. unfold check_output. by destruct c, (_ : option string). Qed.

Lemma indep_for_each {A S} (body : S → A → M S) l a :
  (∀ a x, indep (body a x)) → indep (for_each body l a).
Proof.
  intros Hb. revert a. induction l as [|x l IH]; intros a; cbn [for_each].
  - apply indep_ret.
  - by apply indep_bind.
Qed.

Lemma indep_FileDiff_get_blamed_revs fd exclude :
  indep (FileDiff_get_blamed_revs repo fd exclude).
Proof.
  unfold FileDiff_get_blamed_revs, HgPApi_parent, HgPApi_blame, HgPApi_run_command.
  apply indep_bind; [apply indep_check_output|]. intros p.
  apply indep_bind; [apply indep_check_output|]. intros b.
  by destruct (diffs fd).
Qed.

Lemma indep_RevisionDiff_get_blamed_revs rd exclude rust_only :
  indep (RevisionDiff_get_blamed_revs repo rd exclude rust_only).
Proof.
  unfold RevisionDiff_get_blamed_revs. apply indep_for_each. intros a fd.
  destruct (rust_only && negb (FileDiff_is_rust_file fd)); [apply indep_ret|].
  apply indep_bind; [apply indep_FileDiff_get_blamed_revs|]. intros ?. apply indep_ret.
Qed.

(** A loop that unites into its accumulator what [f] returns for the
    elements it does not skip. *)
Lemma for_each_union {A} (skip : A → bool) (f : A → M (gset string)) l acc w s w' :
  (∀ x, indep (f x)) →
  for_each (λ acc x, if skip x then mret acc else sx ← f x; mret (acc ∪ sx)) l acc w
    = (Ok s, w') →
  acc ⊆ s ∧
  (∀ x, x ∈ l → skip x = false → ∃ sx, (f x w).1 = Ok sx ∧ sx ⊆ s) ∧
  (∀ r, r ∈ s → r ∈ acc ∨ ∃ x sx, x ∈ l ∧ skip x = false ∧ (f x w).1 = Ok sx ∧ r ∈ sx).
Proof.
  intros Hf. revert acc w. induction l as [|x l IH]; intros acc w; cbn [for_each].
  - intros [= <- _]. split_and!; [done| |by left].
    intros x Hx. by apply elem_of_nil in Hx.
  - intros (acc1 & w1 & Hx & Hrest)%bind_inv.
    apply IH in Hrest as (Hsub & Hall & Hex).
    assert (∀ y sy, (f y w1).1 = Ok sy → (f y w).1 = Ok sy) as Hw
      by (intros y sy <-; apply Hf).
    destruct (skip x) eqn:Hskip.
    + injection Hx as <- <-. split_and!; [done| |].
      * intros y [->|Hy]%elem_of_cons Hy'; [congruence|]. eauto.
      * intros r [Hr|(y & sy & Hy & Hy' & Hrun & Hr)]%Hex; [by left|].
        right. exists y, sy. split_and!; [by right|done..].
    + apply bind_inv in Hx as (sx & w2 & Hrun & [= <- <-]).
      split_and!.
      * intros r Hr. apply Hsub, elem_of_union. by left.
      * intros y [->|Hy]%elem_of_cons Hy'.
        -- exists sx. rewrite Hrun. split; [done|].
           intros r Hr. apply Hsub, elem_of_union. by right.
        -- destruct (Hall y Hy Hy') as (sy & Hsy & Hsub'). exists sy.
           split; [|done]. rewrite <- Hsy. apply Hf.
      * intros r [[Hr|Hr]%elem_of_union|(y & sy & Hy & Hy' & Hsy & Hr)]%Hex.
        -- by left.
        -- right. exists x, sx. rewrite Hrun. split_and!; [by left|done..].
        -- right. exists y, sy. split_and!; [by right|done| |done].
           rewrite <- Hsy. apply Hf.
Qed.

(** X7: when [get_blamed_revs] returns, the blame of every file it does
    not skip has returned, and the set is the union of what these blames
    return: each of them is included, and every revision of the set comes
    from one of them.  A file whose blame raises makes the whole
    aggregation raise. *)
Theorem X7_union_over_files rev_diffs exclude rust_only w s w' :
  get_blamed_revs repo rev_diffs exclude rust_only w = (Ok s, w') →
  (∀ rd fd, rd ∈ rev_diffs → fd ∈ files rd → considered rust_only fd = true →
     ∃ s_fd, (FileDiff_get_blamed_revs repo fd exclude w).1 = Ok s_fd ∧ s_fd ⊆ s) ∧
  (∀ r, r ∈ s →
     ∃ rd fd s_fd, rd ∈ rev_diffs ∧ fd ∈ files rd ∧ considered rust_only fd = true ∧
                   (FileDiff_get_blamed_revs repo fd exclude w).1 = Ok s_fd ∧ r ∈ s_fd).
Proof.
  unfold get_blamed_revs. intros H.
  apply (for_each_union (λ _, false)
           (λ rd, RevisionDiff_get_blamed_revs repo rd exclude rust_only)) in H
    as (_ & Hall & Hex); [|intros rd; apply indep_RevisionDiff_get_blamed_revs].
  assert (∀ rd s_rd,
            (RevisionDiff_get_blamed_revs repo rd exclude rust_only w).1 = Ok s_rd →
            (∀ fd, fd ∈ files rd → considered rust_only fd = true →
               ∃ s_fd, (FileDiff_get_blamed_revs repo fd exclude w).1 = Ok s_fd
                       ∧ s_fd ⊆ s_rd) ∧
            (∀ r, r ∈ s_rd →
               ∃ fd s_fd, fd ∈ files rd ∧ considered rust_only fd = true ∧
                          (FileDiff_get_blamed_revs repo fd exclude w).1 = Ok s_fd
                          ∧ r ∈ s_fd)) as Hrd.
  { intros rd s_rd Hrun.
    destruct (RevisionDiff_get_blamed_revs repo rd exclude rust_only w)
      as [res w1] eqn:Hrun'. cbn in Hrun. subst res.
    unfold RevisionDiff_get_blamed_revs in Hrun'.
    apply (for_each_union (λ fd, rust_only && negb (FileDiff_is_rust_file fd))
             (λ fd, FileDiff_get_blamed_revs repo fd exclude)) in Hrun'
      as (_ & Hall' & Hex'); [|intros fd; apply indep_FileDiff_get_blamed_revs].
    split.
    - intros fd Hfd Hc. apply Hall'; [done|].
      unfold considered in Hc. by apply negb_true_iff in Hc.
    - intros r [Hr|(fd & s_fd & Hfd & Hskip & Hs & Hr)]%Hex';
        [by apply not_elem_of_empty in Hr|].
      exists fd, s_fd. split_and!; [done| |done..].
      unfold considered. by rewrite Hskip. }
  split.
  - intros rd fd Hrd' Hfd Hc.
    destruct (Hall rd Hrd' eq_refl) as (s_rd & Hs_rd & Hsub).
    destruct (Hrd rd s_rd Hs_rd) as [Hfiles _].
    destruct (Hfiles fd Hfd Hc) as (s_fd & Hs_fd & Hsub').
    exists s_fd. split; [done|]. intros r Hr. by apply Hsub, Hsub'.
  - intros r [Hr|(rd & s_rd & Hrd' & _ & Hs_rd & Hr)]%Hex;
      [by apply not_elem_of_empty in Hr|].
    destruct (Hrd rd s_rd Hs_rd) as [_ Hrevs].
    destruct (Hrevs r Hr) as (fd & s_fd & Hfd & Hc & Hs_fd & Hr').
    by exists rd, fd, s_fd.
Qed.

End Aggregation.

Lemma X7_union_over_files_witness :
  ∃ s_fd, (FileDiff_get_blamed_revs Demo.repo
             {| fd_revision := "12"; filename := "foo.rs";
                diffs := [ {| start := 2; count := 2 |} ] |}
             ["10"; "12"] Demo.w0).1 = Ok s_fd ∧ s_fd ⊆ Demo.blamed.
Proof.
  assert (get_blamed_revs Demo.repo
            [ {| revision := "10";
                 files := [ {| fd_revision := "10"; filename := "foo.py";
                               diffs := [ {| start := 0; count := 2 |} ] |} ] |};
              {| revision := "12";
                 files := [ {| fd_revision := "12"; filename := "foo.rs";
                               diffs := [ {| start := 2; count := 2 |} ] |};
                            {| fd_revision := "12"; filename := "foo.py";
                               diffs := [ {| start := 1; count := 1 |} ] |} ] |} ]
            ["10"; "12"] false Demo.w0
          = (Ok Demo.blamed,
             ran (blame_cmd "foo.py" "11") (ran (parent_cmd "12")
               (ran (blame_cmd "foo.rs" "11") (ran (parent_cmd "12")
                 (ran (blame_cmd "foo.py" "9") (ran (parent_cmd "10") Demo.w0)))))))
    as Hrun by (vm_compute; reflexivity).
  apply X7_union_over_files in Hrun as [Hall _].
  eapply Hall; [right; left| left |]; reflexivity.
Defined.

(** ** The commands of the blame stage *)

Section BlameStageCommands.

Variable repo : HgRepo.

Lemma runs_only_ret {A} P (a : A) : runs_only P (mret a).
Proof. intros w. split; [done|]. exists []. by rewrite app_nil_r. Qed.

Lemma runs_only_lift {A} P (r : result A) : runs_only P (lift r).
Proof. intros w. split; [done|]. exists []. by rewrite app_nil_r. Qed.

Lemma runs_only_bind {A B} P (m : M A) (f : A → M B) :
  runs_only P m → (∀ a, runs_only P (f a)) → runs_only P (m ≫= f).
Proof.
  intros Hm Hf w. unfold mbind, M_bind.
  destruct (Hm w) as (Hout & c1 & Htr & Hc1).
  destruct (m w) as [[e|a] w1]; cbn [snd] in *; [by eauto|].
  destruct (Hf a w1) as (Hout' & c2 & Htr' & Hc2).
  split; [congruence|]. exists (c1 ++ c2)%list.
  split; [|by apply Forall_app]. by rewrite Htr', Htr, app_assoc.
Qed.

Lemma runs_only_check_output (P : command → Prop) c :
  P c → runs_only P (check_output repo c).
Proof.
  intros Hc w. unfold check_output.
  destruct (match c with Hg args => _ | Shell line => _ end);
    (split; [done|]); exists [c]; split; (done || by constructor).
Qed.

Lemma runs_only_for_each {A S} P (body : S → A → M S) l a :
  (∀ a x, x ∈ l → runs_only P (body a x)) → runs_only P (for_each body l a).
Proof.
  revert a. induction l as [|x l IH]; intros a Hb; cbn [for_each].
  - apply runs_only_ret.
  - apply runs_only_bind; [apply Hb; by left|].
    intros a'. apply IH. intros a'' y Hy. apply Hb. by right.
Qed.

Lemma runs_only_FileDiff_get_blamed_revs fd exclude rust_only :
  considered rust_only fd = true →
  runs_only (blame_stage_cmd rust_only) (FileDiff_get_blamed_revs repo fd exclude).
Proof.
  intros Hc. unfold FileDiff_get_blamed_revs, HgPApi_parent, HgPApi_blame,
    HgPApi_run_command.
  apply runs_only_bind.
  { apply runs_only_check_output. left. by eexists. }
  intros p. apply runs_only_bind.
  { apply runs_only_check_output. right. exists (filename fd), p. split; [done|].
    intros ->. apply is_rust_file_suffix.
    unfold considered in Hc. cbn in Hc. by apply negb_true_iff, negb_false_iff in Hc. }
  intros b. destruct (diffs fd); [apply runs_only_lift | apply runs_only_ret].
Qed.

(** X8: whether it returns or raises, [get_blamed_revs] prints nothing and
    runs only parent queries and blames; with [rust_only] set it blames
    only files whose name ends in [.rs]. *)
Theorem X8_blame_stage_commands rev_diffs exclude rust_only w :
  stdout (get_blamed_revs repo rev_diffs exclude rust_only w).2 = stdout w ∧
  ∃ cmds,
    trace (get_blamed_revs repo rev_diffs exclude rust_only w).2
      = (trace w ++ cmds)%list ∧
    Forall (blame_stage_cmd rust_only) cmds.
Proof.
  revert w. change (runs_only (blame_stage_cmd rust_only)
                      (get_blamed_revs repo rev_diffs exclude rust_only)).
  unfold get_blamed_revs. apply runs_only_for_each. intros acc rd _.
  apply runs_only_bind; [|intros ?; apply runs_only_ret].
  unfold RevisionDiff_get_blamed_revs. apply runs_only_for_each. intros acc' fd _.
  destruct (rust_only && negb (FileDiff_is_rust_file fd)) eqn:Hskip;
    [apply runs_only_ret|].
  apply runs_only_bind; [|intros ?; apply runs_only_ret].
  apply runs_only_FileDiff_get_blamed_revs. unfold considered. by rewrite Hskip.
Qed.

End BlameStageCommands.

(** ** Orchestrator: what [main] prints *)

Section MainOutput.

Variable repo : HgRepo.

Implicit Types (d : dict) (X : gset string).

Lemma count_prior_commits_eq author rev w :
  HgPApi_count_prior_commits repo author rev w =
    match Py.int rev with
    | None => (Raise (ValueError rev), w)
    | Some n =>
        match sh_out repo (count_cmd author n) with
        | Some out => (Ok (Py.rstrip out), ran (Shell (count_cmd author n)) w)
        | None => (Raise (CalledProcessError (Shell (count_cmd author n))),
                   ran (Shell (count_cmd author n)) w)
        end
    end.
Proof.
  unfold HgPApi_count_prior_commits, py_int, lift, mbind, M_bind, check_output,
    count_cmd.
  destruct (Py.int rev) as [n|]; [|reflexivity].
  unfold Ok. cbv beta iota. destruct (sh_out repo _); reflexivity.
Qed.

(** The loop over the dictionary returns when every entry has a count, and
    then prints the counts in the order of the entries. *)
Lemma print_counts_inv d w w' :
  print_counts repo d w = (Ok tt, w') →
  Forall (λ entry, is_Some (commit_count repo entry)) d ∧
  stdout w' = (stdout w ++ omap (commit_count repo) d)%list.
Proof.
  unfold print_counts. revert w. induction d as [|[a r] d IH]; intros w; cbn [for_each].
  - intros [= <-]. by rewrite app_nil_r.
  - intros ([] & w1 & (cc & w2 & Hcc & Hp)%bind_inv & Hrest)%bind_inv.
    rewrite count_prior_commits_eq in Hcc.
    apply IH in Hrest as [Hall Hout].
    assert (commit_count repo (a, r) = Some cc ∧ stdout w1 = (stdout w ++ [cc])%list)
      as [Hc Hw1].
    { unfold commit_count. cbn [fst snd].
      destruct (Py.int r) as [n|]; [|done]. cbn.
      destruct (sh_out repo (count_cmd a n)) as [out|]; [|done]. cbn.
      injection Hcc as <- <-. by injection Hp as <-. }
    split; [constructor; by rewrite ?Hc|].
    cbn [omap list_omap]. rewrite Hc, Hout, Hw1. by rewrite <- app_assoc.
Qed.

Lemma print_counts_total d w :
  Forall (λ entry, is_Some (commit_count repo entry)) d →
  ∃ w', print_counts repo d w = (Ok tt, w').
Proof.
  unfold print_counts. revert w. induction d as [|[a r] d IH]; intros w Hall;
    cbn [for_each]; [by eexists|].
  apply Forall_cons in Hall as [[cc Hc] Hall].
  unfold commit_count in Hc. cbn [fst snd] in Hc.
  destruct (Py.int r) as [n|] eqn:Hn; [|done]. cbn in Hc.
  destruct (sh_out repo (count_cmd a n)) as [out|] eqn:Hsh; [|done].
  erewrite bind_ok.
  - apply IH, Hall.
  - erewrite bind_ok; [reflexivity|]. by rewrite count_prior_commits_eq, Hn, Hsh.
Qed.

Lemma omap_ext_elem {A B} (f g : A → option B) (l : list A) :
  (∀ x, x ∈ l → f x = g x) → omap f l = omap g l.
Proof.
  induction l as [|x l IH]; intros H; [done|]. cbn [omap list_omap].
  rewrite (H x) by (by left). rewrite IH; [done|].
  intros y Hy. apply H. by right.
Qed.

(** The entries of a dictionary without repeated keys are what its lookups
    give. *)
Lemma omap_dict (f : string * string → option string) d :
  NoDup (dict_keys d) →
  omap f d = omap (λ a, r ← dict_get d a; f (a, r)) (dict_keys d).
Proof.
  unfold dict_keys. induction d as [|[a r] d IH]; [done|].
  cbn [fmap list_fmap fst]. intros [Ha Hd]%NoDup_cons. cbn [omap list_omap dict_get].
  rewrite bool_decide_eq_true_2 by done. cbn.
  rewrite IH by done.
  rewrite (omap_ext_elem (λ a0, r0 ← dict_get ((a, r) :: d) a0; f (a0, r0))
             (λ a0, r0 ← dict_get d a0; f (a0, r0)) d.*1); [done|].
  intros a' Ha'. cbn [dict_get]. rewrite bool_decide_eq_false_2; [done|].
  by intros ->.
Qed.

Lemma dict_get_elem d a r : dict_get d a = Some r → (a, r) ∈ d.
Proof.
  induction d as [|[a' r'] d IH]; [done|]. cbn [dict_get].
  case_bool_decide as Heq; [intros [= <-]; subst; by left | intros ?%IH; by right].
Qed.

Lemma dict_elem_get d a r :
  NoDup (dict_keys d) → (a, r) ∈ d → dict_get d a = Some r.
Proof.
  unfold dict_keys. induction d as [|[a' r'] d IH]; intros Hnd Hin.
  - by apply elem_of_nil in Hin.
  - cbn [fmap list_fmap fst] in Hnd. apply NoDup_cons in Hnd as [Ha' Hnd].
    cbn [dict_get]. apply elem_of_cons in Hin as [[= -> ->]|Hin].
    + by rewrite bool_decide_eq_true_2.
    + rewrite bool_decide_eq_false_2; [by apply IH|].
      intros ->. apply Ha'. apply list_elem_of_fmap. by exists (a, r).
Qed.

(** Revisions that are the same number have the same count. *)
Lemma commit_count_same_number a r1 r2 :
  same_number r1 r2 → commit_count repo (a, r1) = commit_count repo (a, r2).
Proof.
  intros [->|(n & H1 & H2)]; [done|]. unfold commit_count. cbn [fst snd].
  by rewrite H1, H2.
Qed.

(** Two attributions of one set print the same lines, in some order. *)
Lemma represents_same_counts X d1 d2 :
  represents repo X d1 → represents repo X d2 →
  omap (commit_count repo) d1 ≡ₚ omap (commit_count repo) d2 ∧
  (Forall (λ entry, is_Some (commit_count repo entry)) d1 →
   Forall (λ entry, is_Some (commit_count repo entry)) d2).
Proof.
  intros (Hnd1 & Hent1 & Hcov1) (Hnd2 & Hent2 & Hcov2).
  assert (∀ a r2, dict_get d2 a = Some r2 →
                  ∃ r1, dict_get d1 a = Some r1 ∧ same_number r1 r2) as Hrel.
  { intros a r2 H2. destruct (Hent2 a r2 H2) as (Hr2 & Ha2 & Hmin2).
    destruct (Hcov1 r2 Hr2) as (a0 & Ha0 & [r1 H1]).
    assert (a0 = a) as -> by congruence. exists r1. split; [done|].
    destruct (Hent1 a r1 H1) as (Hr1 & Ha1 & Hmin1).
    destruct (decide (r1 = r2)) as [->|Hne]; [by left|]. right.
    destruct (Hmin1 r2) as (n1 & n2 & Hn1 & Hn2 & Hle1); [done..|].
    destruct (Hmin2 r1) as (m2 & m1 & Hm2 & Hm1 & Hle2); [done|done|congruence|].
    exists n1. split; [done|]. rewrite Hn2. f_equal. simplify_eq. lia. }
  assert (∀ a, a ∈ dict_keys d2 → a ∈ dict_keys d1) as Hkeys21.
  { intros a [r2 H2]%dict_keys_get. destruct (Hrel a r2 H2) as (r1 & H1 & _).
    apply dict_keys_get. by eexists. }
  assert (∀ a, a ∈ dict_keys d1 → a ∈ dict_keys d2) as Hkeys12.
  { intros a [r1 H1]%dict_keys_get. destruct (Hent1 a r1 H1) as (Hr1 & Ha1 & _).
    destruct (Hcov2 r1 Hr1) as (a0 & Ha0 & Hv). apply dict_keys_get. congruence. }
  split.
  - rewrite (omap_dict _ d1), (omap_dict _ d2) by done.
    rewrite (omap_ext_elem (λ a, r ← dict_get d2 a; commit_count repo (a, r))
               (λ a, r ← dict_get d1 a; commit_count repo (a, r)) (dict_keys d2)).
    + apply omap_Permutation, NoDup_Permutation; [done..|]. split; auto.
    + intros a [r2 H2]%dict_keys_get. destruct (Hrel a r2 H2) as (r1 & H1 & Hsame).
      rewrite H1, H2. cbn. symmetry. by apply commit_count_same_number.
  - intros Hall. apply Forall_forall. intros [a r2] Hin.
    assert (dict_get d2 a = Some r2) as H2 by (by apply dict_elem_get).
    destruct (Hrel a r2 H2) as (r1 & H1 & Hsame).
    rewrite <- (commit_count_same_number a r1 r2 Hsame).
    rewrite Forall_forall in Hall. apply (Hall (a, r1)). by apply dict_get_elem.
Qed.

(** The stages before the printing print nothing. *)
Lemma quiet_map_M {A B} (f : A → M B) l :
  (∀ x, runs_only (λ _, True) (f x)) → runs_only (λ _, True) (map_M f l).
Proof.
  intros Hf. induction l as [|x l IH]; cbn [map_M]; [apply runs_only_ret|].
  apply runs_only_bind; [apply Hf|]. intros y.
  apply runs_only_bind; [apply IH|]. intros ys. apply runs_only_ret.
Qed.

Lemma quiet_run_command args : runs_only (λ _, True) (HgPApi_run_command repo args).
Proof. by apply runs_only_check_output. Qed.

Lemma quiet_revs_from_keyword keyword :
  runs_only (λ _, True) (HgPApi_revs_from_keyword repo keyword).
Proof.
  apply runs_only_bind; [apply quiet_run_command|]. intros ?. apply runs_only_ret.
Qed.

Lemma quiet_get_blamed_revs rev_diffs exclude rust_only :
  runs_only (λ _, True) (get_blamed_revs repo rev_diffs exclude rust_only).
Proof.
  apply runs_only_for_each. intros acc rd _.
  apply runs_only_bind; [|intros ?; apply runs_only_ret].
  apply runs_only_for_each. intros acc' fd _.
  destruct (rust_only && negb (FileDiff_is_rust_file fd)); [apply runs_only_ret|].
  apply runs_only_bind; [|intros ?; apply runs_only_ret].
  apply runs_only_bind; [apply quiet_run_command|]. intros p.
  apply runs_only_bind; [apply quiet_run_command|]. intros b.
  destruct (diffs fd); [apply runs_only_lift | apply runs_only_ret].
Qed.

Lemma quiet_main_blamed_revs revisions rust_only :
  runs_only (λ _, True) (main_blamed_revs repo revisions rust_only).
Proof.
  apply runs_only_bind.
  { apply quiet_map_M. intros rv.
    apply runs_only_bind; [apply quiet_run_command|]. intros ?. apply runs_only_ret. }
  intros raw. apply runs_only_bind.
  { apply quiet_map_M. intros [rv dtext]. apply runs_only_lift. }
  intros rds. apply quiet_get_blamed_revs.
Qed.

Lemma quiet_get_blamed_names pick X :
  runs_only (λ _, True) (get_blamed_names repo pick X).
Proof.
  unfold get_blamed_names. generalize (size X) at 1. intros fuel.
  generalize (@nil (string * string)). revert X.
  induction fuel as [|fuel IH]; intros X d; cbn [get_blamed_names_loop];
    [apply runs_only_ret|].
  case_bool_decide; [apply runs_only_ret|].
  apply runs_only_bind; [|intros ?; apply IH].
  apply runs_only_bind; [apply quiet_run_command|]. intros a.
  destruct (dict_get d a); [|apply runs_only_ret].
  apply runs_only_bind; [apply runs_only_lift|]. intros n.
  apply runs_only_bind; [apply runs_only_lift|]. intros m.
  case_bool_decide; apply runs_only_ret.
Qed.

Lemma quiet_stdout {A} (m : M A) w r w' :
  runs_only (λ _, True) m → m w = (r, w') → stdout w' = stdout w.
Proof. intros Hm Hrun. destruct (Hm w) as [Hout _]. by rewrite Hrun in Hout. Qed.

(** [main] past the keyword search, when revisions were found. *)
Lemma main_stages pick keyword rust_only w revisions wa :
  HgPApi_revs_from_keyword repo keyword w = (Ok revisions, wa) →
  revisions ≠ [] →
  main repo pick keyword rust_only w =
    (X ← main_blamed_revs repo revisions rust_only;
     p ← get_blamed_names repo pick X;
     print_counts repo p.1) wa.
Proof.
  intros Hrevs Hne. unfold main. erewrite bind_ok by done.
  destruct revisions as [|rv revisions]; [done|].
  unfold mbind, M_bind.
  destruct (main_blamed_revs repo (rv :: revisions) rust_only wa) as [[e|X] wb]; [done|].
  by destruct (get_blamed_names repo pick X wb) as [[e|[d X']] wc].
Qed.

Lemma main_no_revisions pick keyword rust_only w wa :
  HgPApi_revs_from_keyword repo keyword w = (Ok [], wa) →
  main repo pick keyword rust_only w = (Ok tt, wa).
Proof. intros Hrevs. unfold main. by erewrite bind_ok by done. Qed.

(** What a run of [main] that returns has gone through. *)
Lemma main_inv pick keyword rust_only w w' :
  main repo pick keyword rust_only w = (Ok tt, w') →
  ∃ revisions wa,
    HgPApi_revs_from_keyword repo keyword w = (Ok revisions, wa) ∧
    stdout wa = stdout w ∧
    ((revisions = [] ∧ w' = wa) ∨
     (revisions ≠ [] ∧
      ∃ X wb d wc,
        main_blamed_revs repo revisions rust_only wa = (Ok X, wb) ∧
        get_blamed_names repo pick X wb = (Ok (d, ∅), wc) ∧
        represents repo X d ∧
        stdout wc = stdout w ∧
        print_counts repo d wc = (Ok tt, w'))).
Proof.
  intros Hmain.
  destruct (HgPApi_revs_from_keyword repo keyword w) as [[e|revisions] wa] eqn:Hrevs.
  { unfold main in Hmain. by erewrite bind_raise in Hmain by done. }
  exists revisions, wa. split; [done|].
  pose proof (quiet_stdout _ _ _ _ (quiet_revs_from_keyword keyword) Hrevs) as Hwa.
  split; [done|]. destruct revisions as [|rv revisions].
  - left. rewrite (main_no_revisions _ _ _ _ _ Hrevs) in Hmain. by injection Hmain as <-.
  - right. split; [done|].
    rewrite (main_stages _ _ _ _ _ _ Hrevs) in Hmain by done.
    apply bind_inv in Hmain as (X & wb & HX & (p & wc & Hd & Hprint)%bind_inv).
    destruct p as [d X'].
    pose proof (get_blamed_names_represents _ _ _ _ _ _ _ Hd) as [Hrep ->].
    exists X, wb, d, wc. split_and!; [done..| |done].
    rewrite (quiet_stdout _ _ _ _ (quiet_get_blamed_names pick X) Hd).
    rewrite (quiet_stdout _ _ _ _ (quiet_main_blamed_revs _ rust_only) HX). done.
Qed.

(** X9: the choice [set.pop()] makes does not show in what [main] prints.
    If [main] returns for one draw order it returns for every other, and
    the lines printed are the same up to their order. *)
Theorem X9_output_order_independent pick1 pick2 keyword rust_only w w1 :
  main repo pick1 keyword rust_only w = (Ok tt, w1) →
  ∃ w2 lines1 lines2,
    main repo pick2 keyword rust_only w = (Ok tt, w2) ∧
    stdout w1 = (stdout w ++ lines1)%list ∧
    stdout w2 = (stdout w ++ lines2)%list ∧
    lines1 ≡ₚ lines2.
Proof.
  intros (revisions & wa & Hrevs & Hwa &
          [[-> ->] | (Hne & X & wb & d1 & wc1 & HX & Hd1 & Hrep1 & Hwc1 & Hprint1)])%main_inv.
  - exists wa, [], []. rewrite (main_no_revisions _ _ _ _ _ Hrevs).
    by rewrite Hwa, app_nil_r.
  - destruct (get_blamed_names_total repo pick2 X wb) as (d2 & wc2 & Hd2);
      [by eapply represents_reducible|].
    pose proof (get_blamed_names_represents _ _ _ _ _ _ _ Hd2) as [Hrep2 _].
    apply print_counts_inv in Hprint1 as [Hall1 Hout1].
    destruct (represents_same_counts X d1 d2 Hrep1 Hrep2) as [Hperm Hall].
    destruct (print_counts_total d2 wc2 (Hall Hall1)) as [w2 Hprint2].
    exists w2, (omap (commit_count repo) d1), (omap (commit_count repo) d2).
    split_and!; [| |  |done].
    + rewrite (main_stages _ _ _ _ _ _ Hrevs) by done.
      erewrite bind_ok by done. by erewrite bind_ok by done.
    + by rewrite Hout1, Hwc1.
    + apply print_counts_inv in Hprint2 as [_ ->].
      rewrite (quiet_stdout _ _ _ _ (quiet_get_blamed_names pick2 X) Hd2).
      rewrite (quiet_stdout _ _ _ _ (quiet_main_blamed_revs _ rust_only) HX).
      by rewrite Hwa.
Qed.

Lemma size_blamed_authors X d :
  represents repo X d → length d = size (blamed_authors repo X).
Proof.
  intros (Hnd & Hent & Hcov).
  rewrite <- (length_fmap fst d). change (fst <$> d) with (dict_keys d).
  rewrite <- (size_list_to_set (C := gset string) (dict_keys d)) by done.
  f_equal. apply set_eq. intros a. unfold blamed_authors.
  rewrite !elem_of_list_to_set, list_elem_of_omap, dict_keys_get. split.
  - intros [r Hr]. destruct (Hent a r Hr) as (HrX & Ha & _).
    exists r. split; [by apply elem_of_elements|done].
  - intros (r & HrX%elem_of_elements & Ha).
    destruct (Hcov r HrX) as (a0 & Ha0 & Hv). congruence.
Qed.

(** X10: a run of [main] that returns prints one line for each author of
    a blamed revision: as many lines as the blamed revisions have distinct
    authors, and none when the keyword names no revision. *)
Theorem X10_one_line_per_author pick keyword rust_only w w' :
  main repo pick keyword rust_only w = (Ok tt, w') →
  ∃ revisions wa lines,
    HgPApi_revs_from_keyword repo keyword w = (Ok revisions, wa) ∧
    stdout w' = (stdout w ++ lines)%list ∧
    match revisions with
    | [] => lines = []
    | _ => ∃ X wb, main_blamed_revs repo revisions rust_only wa = (Ok X, wb) ∧
                   length lines = size (blamed_authors repo X)
    end.
Proof.
  intros (revisions & wa & Hrevs & Hwa &
          [[-> ->] | (Hne & X & wb & d & wc & HX & Hd & Hrep & Hwc & Hprint)])%main_inv.
  - exists [], wa, []. by rewrite Hwa, app_nil_r.
  - apply print_counts_inv in Hprint as [Hall Hout].
    exists revisions, wa, (omap (commit_count repo) d).
    split_and!; [done|by rewrite Hout, Hwc|].
    destruct revisions as [|rv revisions]; [done|].
    exists X, wb. split; [done|]. rewrite <- (size_blamed_authors X d Hrep).
    clear -Hall. induction Hall as [|entry d [c Hc] _ IH]; [done|].
    cbn [omap list_omap]. rewrite Hc. cbn. by rewrite IH.
Qed.

End MainOutput.

Lemma X9_output_order_independent_witness :
  ∃ w2 lines1 lines2,
    main Demo.repo Demo.pick_last "1234" false Demo.w0 = (Ok tt, w2) ∧
    stdout (main Demo.repo Demo.pick_first "1234" false Demo.w0).2
      = (stdout Demo.w0 ++ lines1)%list ∧
    stdout w2 = (stdout Demo.w0 ++ lines2)%list ∧
    lines1 ≡ₚ lines2.
Proof.
  eapply (X9_output_order_independent Demo.repo Demo.pick_first Demo.pick_last
            "1234" false Demo.w0).
  vm_compute. reflexivity.
Defined.

Lemma X10_one_line_per_author_witness :
  ∃ revisions wa lines,
    HgPApi_revs_from_keyword Demo.repo "1234" Demo.w0 = (Ok revisions, wa) ∧
    stdout (main Demo.repo Demo.pick_first "1234" false Demo.w0).2
      = (stdout Demo.w0 ++ lines)%list ∧
    match revisions with
    | [] => lines = []
    | _ => ∃ X wb, main_blamed_revs Demo.repo revisions false wa = (Ok X, wb) ∧
                   length lines = size (blamed_authors Demo.repo X)
    end.
Proof.
  eapply (X10_one_line_per_author Demo.repo Demo.pick_first "1234" false Demo.w0).
  vm_compute. reflexivity.
Defined.

(** ** AuthorReducer: queries and failures *)

Section AuthorQueries.

Variable repo : HgRepo.

Implicit Types (d : dict) (X : gset string).

Lemma reduce_trace l d w d' w' :
  for_each (blamed_names_update repo) l d w = (Ok d', w') →
  trace w' = (trace w ++ (author_cmd <$> l))%list ∧ stdout w' = stdout w.
Proof.
  revert d w. induction l as [|rev l IH]; intros d w; cbn [for_each].
  - intros [= _ <-]. by rewrite app_nil_r.
  - intros (d1 & w1 & H1 & [Htr Hout]%IH)%bind_inv.
    rewrite blamed_names_update_eq in H1.
    assert (w1 = ran (author_cmd rev) w) as ->.
    { destruct (author_of repo rev); [|done]. by injection H1 as _ <-. }
    rewrite Htr, Hout. cbn [ran trace stdout fmap list_fmap].
    by rewrite <- app_assoc.
Qed.

(** X11: a run of [get_blamed_names] that returns has asked for the author
    of every revision of the set exactly once, and has run nothing else. *)
Theorem X11_one_author_query_per_revision pick X w d X' w' :
  get_blamed_names repo pick X w = (Ok (d, X'), w') →
  ∃ order, order ≡ₚ elements X ∧
           trace w' = (trace w ++ (author_cmd <$> order))%list ∧
           stdout w' = stdout w.
Proof.
  unfold get_blamed_names. rewrite get_blamed_names_loop_eq by done.
  intros (d1 & w1 & H & [= _ _ <-])%bind_inv.
  exists (pop_order pick (size X) X).
  destruct (pop_order_spec pick (size X) X) as [Hnd Hmem]; [done|].
  split; [|by apply reduce_trace in H].
  apply NoDup_Permutation; [done|apply NoDup_elements|].
  intros r. by rewrite Hmem, elem_of_elements.
Qed.

(** X12: [get_blamed_names] returns exactly on the sets where every
    revision has an author and the revisions of an author blamed more than
    once are numbers; on any other set it raises, whatever the draw order.
    The revision of an author blamed once is never read as a number. *)
Theorem X12_reduction_returns_iff pick X w :
  (∃ d X' w', get_blamed_names repo pick X w = (Ok (d, X'), w')) ↔
  reducible repo X.
Proof.
  split.
  - intros (d & X' & w' & [Hrep _]%get_blamed_names_represents).
    by eapply represents_reducible.
  - intros Hred. destruct (get_blamed_names_total repo pick X w Hred) as (d & w' & H).
    by exists d, ∅, w'.
Qed.

End AuthorQueries.

Lemma X11_one_author_query_per_revision_witness :
  ∃ order, order ≡ₚ elements Demo.blamed ∧
           trace (get_blamed_names Demo.repo Demo.pick_last Demo.blamed Demo.w0).2
             = (trace Demo.w0 ++ (author_cmd <$> order))%list ∧
           stdout (get_blamed_names Demo.repo Demo.pick_last Demo.blamed Demo.w0).2
             = stdout Demo.w0.
Proof.
  eapply (X11_one_author_query_per_revision Demo.repo Demo.pick_last Demo.blamed
            Demo.w0).
  vm_compute. reflexivity.
Defined.

(** ** DiffHunkParser: the name of a file *)

Section MarkerName.

Implicit Types (revision line : string) (files : list FileDiff).

(** A text without whitespace is one token. *)
Lemma split_ws_word cur (tok : string) :
  no_space tok = true → cur ≠ [] ∨ tok ≠ "" →
  Py.split_ws cur tok =
    [string_of_list_ascii (rev cur ++ list_ascii_of_string tok)].
Proof.
  revert cur. induction tok as [|c tok IH]; intros cur Hns Hne.
  - destruct Hne as [Hne|Hne]; [|done]. cbn. rewrite app_nil_r. by destruct cur.
  - cbn [no_space Py.forallb_str] in Hns. apply andb_true_iff in Hns as [Hc Hns].
    apply negb_true_iff in Hc. cbn [Py.split_ws]. rewrite Hc.
    rewrite IH; [|done|by left]. cbn [rev list_ascii_of_string].
    by rewrite <- app_assoc.
Qed.

(** The last token of a line that ends in a space and a word is the
    word. *)
Lemma split_ws_last cur (s tok : string) :
  no_space tok = true → tok ≠ "" →
  last (Py.split_ws cur (s ++ String " " tok)) = Some tok.
Proof.
  intros Hns Hne. revert cur. induction s as [|c s IH]; intros cur.
  - rewrite app_nil. cbn [Py.split_ws]. change (Py.isspace " ") with true. cbv match.
    rewrite split_ws_word; [|done|by right]. cbn [rev app].
    rewrite string_of_list_ascii_of_string, last_app. done.
  - rewrite app_cons. cbn [Py.split_ws]. destruct (Py.isspace c); [|apply IH].
    by rewrite last_app, IH.
Qed.

(** X13: a file-marker line that ends in a space and a word without
    whitespace names its [FileDiff] by that word less its first two
    characters, whatever they are: the [b/] of [diff --git a/f b/f], but
    also the first two characters of the path in [diff -r A -r B path]. *)
Theorem X13_marker_names_file revision files (pre : string) c1 c2 (name : string) :
  no_space (String c1 (String c2 name)) = true →
  parse_line revision files ("diff " ++ pre ++ String " " (String c1 (String c2 name))) =
    Ok (files ++ [FileDiff_init revision name])%list.
Proof.
  intros Hns.
  destruct (parse_line_marker revision files
              (pre ++ String " " (String c1 (String c2 name))))
    as (tok & Htok & ->).
  do 3 f_equal. unfold last_token in Htok.
  change ("diff " ++ pre ++ String " " (String c1 (String c2 name)))
    with (String "d" (String "i" (String "f" (String "f"
           (String " " (pre ++ String " " (String c1 (String c2 name)))))))) in Htok.
  unfold Py.split in Htok. cbn [Py.split_ws] in Htok.
  change (Py.isspace "d") with false in Htok.
  change (Py.isspace "i") with false in Htok.
  change (Py.isspace "f") with false in Htok.
  change (Py.isspace " ") with true in Htok. cbv match in Htok.
  rewrite last_app, split_ws_last in Htok by done.
  injection Htok as <-.
  unfold Py.slice_from. rewrite clip_inside.
  - reflexivity.
  - rewrite !len_cons. pose proof (len_nonneg name). lia.
Qed.

End MarkerName.

Lemma X13_marker_names_file_witness :
  parse_line "12" [] "diff -r 0a1b -r 5f4e src/foo.rs" =
  Ok [FileDiff_init "12" "c/foo.rs"].
Proof.
  apply (X13_marker_names_file "12" [] "-r 0a1b -r 5f4e" "s" "r" "c/foo.rs").
  reflexivity.
Defined.

(** ** BlameIntersector: the exclusion list as a filter *)

Section ExclusionFilter.

Variable repo : HgRepo.

Implicit Types (exclude : list string) (acc : gset string).

(** The scan only adds to what it is given. *)
Lemma blame_scan_acc exclude blame_lines i ld ldi acc r :
  r ∈ blame_scan exclude blame_lines i ld ldi acc ↔
  r ∈ acc ∨ r ∈ blame_scan exclude blame_lines i ld ldi ∅.
Proof.
  revert i ld ldi acc.
  induction blame_lines as [|line blame_lines IH]; intros i ld ldi acc;
    cbn [blame_scan].
  - split; [by left|]. intros [?|Hr]; [done|]. by apply not_elem_of_empty in Hr.
  - assert (∀ (b : Prop) `{!Decision b} ld0 ldi0,
              r ∈ blame_scan exclude blame_lines (i + 1) ld0 ldi0
                    (if bool_decide b
                     then if bool_decide (Py.before ":" line ∉ exclude)
                          then acc ∪ {[Py.before ":" line]} else acc
                     else acc) ↔
              r ∈ acc ∨
              r ∈ blame_scan exclude blame_lines (i + 1) ld0 ldi0
                    (if bool_decide b
                     then if bool_decide (Py.before ":" line ∉ exclude)
                          then ∅ ∪ {[Py.before ":" line]} else ∅
                     else ∅)) as Hstep.
    { intros b ? ld0 ldi0. rewrite IH. rewrite (IH _ _ _ (if bool_decide b then _ else _)).
      rewrite !recorded_iff. pose proof (not_elem_of_empty (C := gset string) r). tauto. }
    destruct (bool_decide (i >= start ld + count ld)).
    + destruct ldi as [|ld' ldi]; cbn [head tail]; [|apply Hstep].
      split; [by left|]. intros [?|Hr]; [done|]. by apply not_elem_of_empty in Hr.
    + apply Hstep.
Qed.

(** Scanning with an exclusion list is scanning without one and dropping
    the excluded revisions. *)
Lemma blame_scan_filter exclude blame_lines i ld ldi r :
  r ∈ blame_scan exclude blame_lines i ld ldi ∅ ↔
  r ∈ blame_scan [] blame_lines i ld ldi ∅ ∧ r ∉ exclude.
Proof.
  revert i ld ldi.
  induction blame_lines as [|line blame_lines IH]; intros i ld ldi; cbn [blame_scan].
  - split; [intros Hr|intros [Hr _]]; by apply not_elem_of_empty in Hr.
  - assert (∀ (b : Prop) `{!Decision b} ld0 ldi0,
              r ∈ blame_scan exclude blame_lines (i + 1) ld0 ldi0
                    (if bool_decide b
                     then if bool_decide (Py.before ":" line ∉ exclude)
                          then ∅ ∪ {[Py.before ":" line]} else ∅
                     else ∅) ↔
              r ∈ blame_scan [] blame_lines (i + 1) ld0 ldi0
                    (if bool_decide b
                     then if bool_decide (Py.before ":" line ∉ [])
                          then ∅ ∪ {[Py.before ":" line]} else ∅
                     else ∅) ∧ r ∉ exclude) as Hstep.
    { intros b ? ld0 ldi0. rewrite blame_scan_acc.
      rewrite (blame_scan_acc [] _ _ _ _ (if bool_decide b then _ else _)).
      rewrite !recorded_iff, IH.
      pose proof (not_elem_of_empty (C := gset string) r).
      pose proof (not_elem_of_nil r). tauto. }
    destruct (bool_decide (i >= start ld + count ld)).
    + destruct ldi as [|ld' ldi]; cbn [head tail]; [|apply Hstep].
      split; [intros Hr|intros [Hr _]]; by apply not_elem_of_empty in Hr.
    + apply Hstep.
Qed.

(** X14: the exclusion list acts as a filter on the result: what
    [FileDiff.get_blamed_revs] returns with an exclusion list is what it
    returns with an empty one, less the excluded revisions. *)
Theorem X14_exclusion_is_a_filter fd exclude w s w' :
  FileDiff_get_blamed_revs repo fd exclude w = (Ok s, w') →
  ∃ s0, FileDiff_get_blamed_revs repo fd [] w = (Ok s0, w') ∧
        s = s0 ∖ list_to_set exclude.
Proof.
  unfold FileDiff_get_blamed_revs.
  intros (p & w1 & Hp & (b & w2 & Hb & H)%bind_inv)%bind_inv.
  erewrite bind_ok by done. erewrite bind_ok by done.
  destruct (diffs fd) as [|ld ldi]; [done|]. injection H as <- <-.
  eexists. split; [reflexivity|]. apply set_eq. intros r.
  rewrite blame_scan_filter, elem_of_difference, elem_of_list_to_set. done.
Qed.

End ExclusionFilter.

Lemma X14_exclusion_is_a_filter_witness :
  ∃ s0, FileDiff_get_blamed_revs Demo.repo
          {| fd_revision := "12"; filename := "foo.rs";
             diffs := [ {| start := 2; count := 2 |} ] |} [] Demo.w0
        = (Ok s0, ran (blame_cmd "foo.rs" "11") (ran (parent_cmd "12") Demo.w0)) ∧
        ({[" 8"]} : gset string) = s0 ∖ list_to_set ["10"; "12"].
Proof.
  apply (X14_exclusion_is_a_filter Demo.repo
           {| fd_revision := "12"; filename := "foo.rs";
              diffs := [ {| start := 2; count := 2 |} ] |} ["10"; "12"] Demo.w0).
  vm_compute. reflexivity.
Defined.

(** ** Orchestrator: the author queries of a run *)

Section MainCommands.

Variable repo : HgRepo.

Implicit Types (d : dict) (X : gset string).

Lemma runs_only_map_M {A B} P (f : A → M B) l :
  (∀ x, runs_only P (f x)) → runs_only P (map_M f l).
Proof.
  intros Hf. induction l as [|x l IH]; cbn [map_M]; [apply runs_only_ret|].
  apply runs_only_bind; [apply Hf|]. intros y.
  apply runs_only_bind; [apply IH|]. intros ys. apply runs_only_ret.
Qed.

(** The stage from the revisions to the blamed set asks for no author. *)
Lemma main_blamed_revs_no_author revisions rust_only :
  runs_only not_author_cmd (main_blamed_revs repo revisions rust_only).
Proof.
  assert (∀ args, (∀ r, args ≠ ["log"; "-T"; "{author}"; "-r"; r]) →
                  runs_only not_author_cmd (HgPApi_run_command repo args)) as Hrun.
  { intros args Hargs. apply runs_only_check_output. intros r [= ?]. by eapply Hargs. }
  apply runs_only_bind.
  { apply runs_only_map_M. intros rv.
    apply runs_only_bind; [|intros ?; apply runs_only_ret].
    apply Hrun. by intros r [=]. }
  intros raw. apply runs_only_bind.
  { apply runs_only_map_M. intros [rv dtext]. apply runs_only_lift. }
  intros rds. apply runs_only_for_each. intros acc rd _.
  apply runs_only_bind; [|intros ?; apply runs_only_ret].
  apply runs_only_for_each. intros acc' fd _.
  destruct (rust_only && negb (FileDiff_is_rust_file fd)); [apply runs_only_ret|].
  apply runs_only_bind; [|intros ?; apply runs_only_ret].
  apply runs_only_bind; [apply Hrun; by intros r [=]|]. intros p.
  apply runs_only_bind; [apply Hrun; by intros r [=]|]. intros b.
  destruct (diffs fd); [apply runs_only_lift | apply runs_only_ret].
Qed.

(** The printing loop runs shell commands only. *)
Lemma print_counts_trace d w w' :
  print_counts repo d w = (Ok tt, w') →
  ∃ cmds, trace w' = (trace w ++ cmds)%list ∧ Forall not_author_cmd cmds.
Proof.
  unfold print_counts. revert w. induction d as [|[a r] d IH]; intros w; cbn [for_each].
  - intros [= <-]. exists []. by rewrite app_nil_r.
  - intros ([] & w1 & (cc & w2 & Hcc & Hp)%bind_inv & (cmds & Htr & Hall)%IH)%bind_inv.
    rewrite count_prior_commits_eq in Hcc.
    destruct (Py.int r) as [n|]; [|done].
    destruct (sh_out repo (count_cmd a n)) as [out|]; [|done].
    injection Hcc as _ <-. injection Hp as <-.
    exists (Shell (count_cmd a n) :: cmds). split.
    + rewrite Htr. cbn [ran trace]. by rewrite <- app_assoc.
    + constructor; [by intros r' [=] | done].
Qed.

(** X15: in a run of [main] that returns, no author query names a fixing
    revision as the keyword search spelled it. *)
Theorem X15_no_author_query_for_fixing_revisions pick keyword rust_only w w' :
  main repo pick keyword rust_only w = (Ok tt, w') →
  ∃ revisions wa cmds,
    HgPApi_revs_from_keyword repo keyword w = (Ok revisions, wa) ∧
    trace w' = (trace w ++ cmds)%list ∧
    ∀ r, author_cmd r ∈ cmds → r ∉ revisions.
Proof.
  intros (revisions & wa & Hrevs & Hwa &
          [[-> ->] | (Hne & X & wb & d & wc & HX & Hd & Hrep & Hwc & Hprint)])%main_inv.
  - exists [], wa, [keyword_cmd keyword]. split; [done|].
    unfold HgPApi_revs_from_keyword in Hrevs.
    apply bind_inv in Hrevs as (out & w1 & [_ ->]%run_command_inv & [= _ <-]).
    split; [done|]. intros r _. apply not_elem_of_nil.
  - assert (trace wa = (trace w ++ [keyword_cmd keyword])%list) as Htr1.
    { unfold HgPApi_revs_from_keyword in Hrevs.
      by apply bind_inv in Hrevs as (out & w1 & [_ ->]%run_command_inv & [= _ <-]). }
    destruct (main_blamed_revs_no_author revisions rust_only wa)
      as (_ & cmds2 & Htr2 & Hall2). rewrite HX in Htr2. cbn [snd] in Htr2.
    assert (∀ r, r ∈ X → r ∉ revisions) as Hexcl.
    { intros r Hr Hin. unfold main_blamed_revs in HX.
      apply bind_inv in HX as (raw & w2 & _ & (rds & w3 & _ & HX)%bind_inv).
      by eapply get_blamed_revs_excluded in HX. }
    unfold get_blamed_names in Hd. rewrite get_blamed_names_loop_eq in Hd by done.
    apply bind_inv in Hd as (d1 & w4 & Hloop & [= _ <-]).
    apply reduce_trace in Hloop as [Htr3 _].
    destruct (pop_order_spec pick (size X) X) as [_ Hmem]; [done|].
    apply print_counts_trace in Hprint as (cmds4 & Htr4 & Hall4).
    exists revisions, wa,
      ([keyword_cmd keyword] ++ cmds2 ++ (author_cmd <$> pop_order pick (size X) X)
         ++ cmds4)%list.
    split; [done|]. split.
    + rewrite Htr4, Htr3, Htr2, Htr1. by rewrite <- !app_assoc.
    + intros r. rewrite !elem_of_app.
      intros [Hk%list_elem_of_singleton|[H2|[H3|H4]]].
      * discriminate Hk.
      * rewrite Forall_forall in Hall2. by destruct (Hall2 _ H2 r).
      * apply list_elem_of_fmap in H3 as (r' & [= ->] & Hr'). apply Hexcl. by apply Hmem.
      * rewrite Forall_forall in Hall4. by destruct (Hall4 _ H4 r).
Qed.

End MainCommands.

Lemma X15_no_author_query_for_fixing_revisions_witness :
  ∃ revisions wa cmds,
    HgPApi_revs_from_keyword Demo.repo "1234" Demo.w0 = (Ok revisions, wa) ∧
    trace (main Demo.repo Demo.pick_first "1234" false Demo.w0).2
      = (trace Demo.w0 ++ cmds)%list ∧
    ∀ r, author_cmd r ∈ cmds → r ∉ revisions.
Proof.
  eapply (X15_no_author_query_for_fixing_revisions Demo.repo Demo.pick_first
            "1234" false Demo.w0).
  vm_compute. reflexivity.
Defined.
